(** * Resilience and dispatch layer of the AI aggregation platform

    A shallow embedding of
      - [CircuitBreaker] (error_handler.py),
      - the [rate_limit] decorator and its in-memory store (rate_limiter.py),
      - [track_usage] and [check_usage_limits] (usage_tracker.py),
      - the [/api/process] route [process_prompt] (app.py),
    followed by the properties of the dispatch layer.

    Conventions of the embedding.
      - Python dictionaries are finite maps ([gmap]); a JSON-like result is a
        map from keys to [value]s.
      - [time.time()] and the durations it is compared with are integers
        (a number of clock ticks); the source compares them with [>] and [-]
        only.  rate_limiter.py imports [time]; error_handler.py does not, so
        there the call [time.time()] raises [NameError] (see
        [Breaker.time_time]).
      - A Python call that may raise returns an [outcome]; [try]/[except
        Exception] is a match on it.  Only exceptions derived from
        [Exception] are modelled.
      - Logging has no effect on the state and is left out. *)

From Stdlib Require Import ZArith Lia Ascii.
From stdpp Require Import gmap strings list fin_maps pretty.

Open Scope Z_scope.
Open Scope string_scope.

(** ** Python values, exceptions, outcomes *)

Inductive value :=
  | VStr (s : string)
  | VNum (n : Z).

Abbreviation pydict := (gmap string value).

(** The exception classes [handle_error] tells apart.  [Timeout] is a
    subclass of [RequestException] in the requests library. *)
Inductive exn_class :=
  | RequestException
  | Timeout
  | ValueError
  | KeyError
  | OtherException.

Record exn := Exn { exn_class_of : exn_class; exn_str : string }.

Inductive outcome (A : Type) :=
  | Returned (a : A)
  | Raised (e : exn).
Arguments Returned {A} a.
Arguments Raised {A} e.

Definition is_raised {A} (o : outcome A) : bool :=
  match o with Raised _ => true | Returned _ => false end.

(** ** error_handler.py: CircuitBreaker *)

Module Breaker.

Inductive cb_state := closed | open | half_open.

Record CircuitBreaker := Mk {
  name : string;
  failure_threshold : Z;
  reset_timeout : Z;
  failures : Z;
  state : cb_state;
  last_failure_time : Z
}.

(** [__init__(self, name, failure_threshold=5, reset_timeout=60)] *)
Definition init (nm : string) (threshold timeout : Z) : CircuitBreaker :=
  {| name := nm; failure_threshold := threshold; reset_timeout := timeout;
     failures := 0; state := closed; last_failure_time := 0 |}.

Definition init_default (nm : string) : CircuitBreaker := init nm 5 60.

Definition set_state (self : CircuitBreaker) (s : cb_state) : CircuitBreaker :=
  {| name := name self; failure_threshold := failure_threshold self;
     reset_timeout := reset_timeout self; failures := failures self;
     state := s; last_failure_time := last_failure_time self |}.

Definition set_failures (self : CircuitBreaker) (n : Z) : CircuitBreaker :=
  {| name := name self; failure_threshold := failure_threshold self;
     reset_timeout := reset_timeout self; failures := n;
     state := state self; last_failure_time := last_failure_time self |}.

Definition set_last_failure_time (self : CircuitBreaker) (t : Z) : CircuitBreaker :=
  {| name := name self; failure_threshold := failure_threshold self;
     reset_timeout := reset_timeout self; failures := failures self;
     state := state self; last_failure_time := t |}.

(** The dictionary returned by the fast-fail branch. *)
Definition unavailable (self : CircuitBreaker) : pydict :=
  <[ "error" := VStr "Service unavailable" ]>
  (<[ "message" := VStr ("The " +:+ name self +:+
        " service is currently unavailable. Please try again later.") ]>
  (<[ "status" := VStr "error" ]> ∅)).

(** [NameError: name 'time' is not defined], an [Exception] that is none of
    the classes [handle_error] knows. *)
Definition name_error : exn := Exn OtherException "name 'time' is not defined".

Section Execute.
(** The world the wrapped function runs in. *)
Context {W : Type}.

(** [time.time()] in error_handler.py.  The module imports [flask.jsonify],
    [logging], [traceback] and [requests], and not [time]: the lookup of the
    name raises [NameError], in whatever world. *)
Definition time_time (w : W) : outcome Z := Raised name_error.

(** A call of the wrapped function: it returns or raises, and may change
    the world (but not the breaker, which it has no reference to). *)
Definition thunk := W -> outcome pydict * W.

(** The [try] body after a successful call (lines 118-124). *)
Definition after_return (self : CircuitBreaker) : CircuitBreaker :=
  match state self with
  | half_open => set_failures (set_state self closed) 0
  | _ => self
  end.

(** The [except Exception as e] handler (lines 126-137), entered in world
    [w1] with the exception [e] of the wrapped function: the exception that
    leaves [execute], and the breaker.  The counter is incremented before
    [time.time()] is evaluated. *)
Definition after_raise (self : CircuitBreaker) (e : exn) (w1 : W)
  : exn * CircuitBreaker :=
  let self1 := set_failures self (failures self + 1) in
  match time_time w1 with
  | Raised name_err => (name_err, self1)
  | Returned t =>
      let self2 := set_last_failure_time self1 t in
      if decide (failures self2 >= failure_threshold self2)
      then (e, set_state self2 open)
      else (e, self2)
  end.

(** The protected call itself (lines 115-137). *)
Definition call_through (self : CircuitBreaker) (func : thunk) (w : W)
  : outcome pydict * CircuitBreaker * W :=
  let '(o, w1) := func w in
  match o with
  | Returned result => (Returned result, after_return self, w1)
  | Raised e =>
      let '(e', self1) := after_raise self e w1 in (Raised e', self1, w1)
  end.

(** [CircuitBreaker.execute(self, func)] *)
Definition execute (self : CircuitBreaker) (func : thunk) (w : W)
  : outcome pydict * CircuitBreaker * W :=
  match state self with
  | open =>
      match time_time w with
      | Raised name_err => (Raised name_err, self, w)
      | Returned t =>
          if decide (t - last_failure_time self > reset_timeout self)
          then call_through (set_state self half_open) func w
          else (Returned (unavailable self), self, w)
      end
  | _ => call_through self func w
  end.

(** A sequence of [execute] calls on one breaker. *)
Fixpoint run (self : CircuitBreaker) (calls : list thunk) (w : W)
  : CircuitBreaker * W :=
  match calls with
  | [] => (self, w)
  | func :: rest =>
      let '(_, self1, w1) := execute self func w in run self1 rest w1
  end.
End Execute.

End Breaker.

(** ** The process-wide state

    The module-level globals of the application and the database file, as one
    record.  [provider_calls] is the trace of [provider.process] calls: it is
    not a variable of the program, it records which upstream calls ran. *)

(** A value of [rate_limit_store]: [{'requests': .., 'window_start': ..}]. *)
Record window := Window { requests : Z; window_start : Z }.

(** A row of table [usage]. *)
Record usage_row := UsageRow {
  u_user_id : Z;
  u_provider : string;
  u_endpoint : string;
  u_timestamp : Z;
  u_response_time : value;
  u_status : value;
  u_tokens : option Z
}.

Record World := MkWorld {
  now : Z;                                              (* time.time() *)
  rate_limit_store : gmap Z window;                     (* rate_limiter.py *)
  circuit_breakers : gmap string Breaker.CircuitBreaker;  (* app.py *)
  usage : list usage_row;                               (* committed rows of table usage *)
  users : gmap Z string;                                (* column tier of table users *)
  provider_calls : list string
}.

Definition with_now (w : World) (t : Z) : World :=
  MkWorld t (rate_limit_store w) (circuit_breakers w) (usage w) (users w)
          (provider_calls w).

Definition with_rate_limit_store (w : World) (s : gmap Z window) : World :=
  MkWorld (now w) s (circuit_breakers w) (usage w) (users w) (provider_calls w).

Definition with_circuit_breakers (w : World)
    (c : gmap string Breaker.CircuitBreaker) : World :=
  MkWorld (now w) (rate_limit_store w) c (usage w) (users w) (provider_calls w).

Definition with_usage (w : World) (u : list usage_row) : World :=
  MkWorld (now w) (rate_limit_store w) (circuit_breakers w) u (users w)
          (provider_calls w).

Definition with_provider_calls (w : World) (l : list string) : World :=
  MkWorld (now w) (rate_limit_store w) (circuit_breakers w) (usage w) (users w) l.

(** A Flask response: [jsonify(body), status_code]. *)
Record response := Response { body : pydict; status_code : Z }.

(** The JSON body of a request to [/api/process]; [None] is an absent key. *)
Record request := Request { req_prompt : option string; req_provider : option string }.

Definition handler := Z -> request -> World -> response * World.

(** ** rate_limiter.py *)

Module RateLimiter.

(** [get_user_tier] of rate_limiter.py, the placeholder the decorator calls. *)
Definition get_user_tier (user_id : Z) : string :=
  if decide (user_id = 1) then "free"
  else if decide (user_id = 2) then "admin"
  else if decide (user_id = 3) then "pro"
  else if decide (user_id = 4) then "enterprise"
  else "free".

(** Lines 36-48: [(max_requests, time_window)] of a tier. *)
Definition limits (tier : string) : Z * Z :=
  if decide (tier = "free") then (50, 3600)
  else if decide (tier = "pro") then (500, 3600)
  else if decide (tier = "enterprise") then (5000, 3600)
  else (10, 3600).

Definition max_requests (tier : string) : Z := fst (limits tier).
Definition time_window (tier : string) : Z := snd (limits tier).

Inductive verdict := Granted | Rejected.

(** Lines 50-55: the record of a user is created on the first request. *)
Definition ensure_record (user_id t : Z) (store : gmap Z window) : gmap Z window :=
  match store !! user_id with
  | None => <[ user_id := Window 0 t ]> store
  | Some _ => store
  end.

(** [rate_limit_store[user_id]]; the key is present wherever the decorator
    reads it, after [ensure_record]. *)
Definition record_of (user_id t : Z) (store : gmap Z window) : window :=
  default (Window 0 t) (store !! user_id).

(** Lines 57-63: a window older than [time_window] is replaced. *)
Definition roll_window (tier : string) (user_id current_time : Z)
    (store : gmap Z window) : gmap Z window :=
  if decide (current_time - window_start (record_of user_id current_time store)
             > time_window tier)
  then <[ user_id := Window 0 current_time ]> store
  else store.

(** The record the limit is checked against: the stored one after lines
    50-63. *)
Definition current_window (tier : string) (user_id t : Z)
    (store : gmap Z window) : window :=
  record_of user_id t (roll_window tier user_id t (ensure_record user_id t store)).

(** Lines 36-74, with the tier of the user given: the verdict and the store
    afterwards.  Both reads of [time.time()] give [t]. *)
Definition allow (tier : string) (user_id t : Z) (store : gmap Z window)
  : verdict * gmap Z window :=
  let store1 := ensure_record user_id t store in
  let store2 := roll_window tier user_id t store1 in
  let r := record_of user_id t store2 in
  if decide (requests r >= max_requests tier)
  then (Rejected, store2)
  else (Granted, <[ user_id := Window (requests r + 1) (window_start r) ]> store2).

(** The body of the 429 response of lines 68-71. *)
Definition limit_exceeded (tier : string) : response :=
  Response
    (<[ "error" := VStr "Rate limit exceeded" ]>
     (<[ "message" := VStr ("You have exceeded the rate limit of " +:+
           pretty (max_requests tier) +:+ " requests per hour for your " +:+
           tier +:+ " tier.") ]> ∅))
    429.

(** [rate_limit(f)]: the decorated route. *)
Definition rate_limit (f : handler) : handler :=
  fun current_user req w =>
    let user_id := current_user in
    let tier := get_user_tier user_id in
    match allow tier user_id (now w) (rate_limit_store w) with
    | (Rejected, store) => (limit_exceeded tier, with_rate_limit_store w store)
    | (Granted, store) => f current_user req (with_rate_limit_store w store)
    end.

(** Requests of a list of users at given times, each under the tier
    [tier_of] gives the user. *)
Fixpoint serve (tier_of : Z -> string) (reqs : list (Z * Z))
    (store : gmap Z window) : gmap Z window :=
  match reqs with
  | [] => store
  | (user_id, t) :: rest =>
      serve tier_of rest (snd (allow (tier_of user_id) user_id t store))
  end.

(** Every stored count is within the limit of its user's tier. *)
Definition within_limits (tier_of : Z -> string) (store : gmap Z window) : Prop :=
  forall user_id r, store !! user_id = Some r ->
    0 <= requests r <= max_requests (tier_of user_id).

End RateLimiter.

(** ** The environment of one request

    What the outside world does during one request: the answers of the
    upstream vendors, and whether the database fails. *)

(** The statement of [track_usage] at which sqlite raises, if any. *)
Inductive db_step := AtConnect | AtExecute | AtCommit | AtClose.

Record Env := MkEnv {
  (* PROVIDERS[name].process(prompt): its result or its exception *)
  process : string -> string -> outcome pydict;
  (* the time the call to a provider takes *)
  duration : string -> Z;
  (* the timestamp of the first instant of the month of a given instant *)
  month_start : Z -> Z;
  (* sqlite raises in get_user_tier of db.py *)
  tier_query_fails : bool;
  (* sqlite raises in check_usage_limits *)
  usage_query_fails : bool;
  (* sqlite raises in track_usage *)
  track_fault : option db_step
}.

Definition with_track_fault (env : Env) (f : option db_step) : Env :=
  MkEnv (process env) (duration env) (month_start env) (tier_query_fails env)
        (usage_query_fails env) f.

(** ** usage_tracker.py and the part of db.py it calls *)

Module Usage.

Definition db_error : exn := Exn OtherException "database error".

(** The [try] body of [track_usage] (lines 33-53): the row is in the table
    once [conn.commit()] has returned. *)
Definition track_usage_body (fault : option db_step) (row : usage_row)
    (table : list usage_row) : outcome unit * list usage_row :=
  match fault with
  | Some AtConnect => (Raised db_error, table)
  | Some AtExecute => (Raised db_error, table)
  | Some AtCommit => (Raised db_error, table)
  | Some AtClose => (Raised db_error, (table ++ [row])%list)
  | None => (Returned tt, (table ++ [row])%list)
  end.

(** [track_usage(user_id, provider, endpoint, response_time, status)],
    [tokens] left at its default [None]. *)
Definition track_usage (env : Env) (user_id : Z) (provider endpoint : string)
    (response_time status : value) (w : World) : outcome unit * World :=
  let row := UsageRow user_id provider endpoint (now w) response_time status None in
  let '(o, table) := track_usage_body (track_fault env) row (usage w) in
  match o with
  | Returned _ => (Returned tt, with_usage w table)
  | Raised e => (Returned tt, with_usage w table)   (* except Exception: logged *)
  end.

(** [get_user_tier] of db.py. *)
Definition get_user_tier (env : Env) (user_id : Z) (w : World) : string :=
  if tier_query_fails env then "free"
  else match users w !! user_id with
       | Some tier => tier
       | None => "free"
       end.

(** [SELECT COUNT( * ) FROM usage WHERE user_id = ? AND timestamp >= ?] *)
Definition usage_count (user_id start_date : Z) (table : list usage_row) : Z :=
  Z.of_nat (length (filter (fun r => u_user_id r = user_id /\
                                     start_date <= u_timestamp r) table)).

(** [check_usage_limits(user_id)] *)
Definition check_usage_limits (env : Env) (user_id : Z) (w : World) : bool :=
  let tier := get_user_tier env user_id w in
  if usage_query_fails env then false   (* Fail closed *)
  else
    let usage_count := usage_count user_id (month_start env (now w)) (usage w) in
    if decide (tier = "free") then bool_decide (usage_count < 50)
    else if decide (tier = "pro") then bool_decide (usage_count < 500)
    else if decide (tier = "enterprise") then true
    else bool_decide (usage_count < 10).

End Usage.

(** ** error_handler.py: handle_error *)

(** [isinstance(error, cls)] on the modelled classes. *)
Definition isinstance (e : exn) (cls : exn_class) : bool :=
  match exn_class_of e, cls with
  | RequestException, RequestException => true
  | Timeout, RequestException => true
  | Timeout, Timeout => true
  | ValueError, ValueError => true
  | KeyError, KeyError => true
  | _, _ => false
  end.

Definition error_body (err msg : string) : pydict :=
  <[ "error" := VStr err ]>
  (<[ "message" := VStr msg ]> (<[ "status" := VStr "error" ]> ∅)).

Definition handle_error (error : exn) : response :=
  if isinstance error RequestException then
    Response (error_body "API request failed" (exn_str error)) 502
  else if isinstance error Timeout then
    Response (error_body "API request timed out"
      "The request to the AI provider timed out. Please try again later.") 504
  else if isinstance error ValueError then
    Response (error_body "Validation error" (exn_str error)) 400
  else if isinstance error KeyError then
    Response (error_body "Missing required field"
      ("Missing required field: " +:+ exn_str error)) 400
  else
    Response (error_body "Internal server error"
      "An unexpected error occurred. Please try again later.") 500.

(** ** app.py: the route /api/process *)

Module App.
Import Breaker.

(** The keys of [PROVIDERS]. *)
Definition PROVIDERS : list string :=
  ["openai"; "anthropic"; "google"; "hunter"; "github"].

(** [circuit_breakers] as created at start-up. *)
Definition initial_circuit_breakers : gmap string CircuitBreaker :=
  <[ "openai" := init_default "openai" ]>
  (<[ "anthropic" := init_default "anthropic" ]>
  (<[ "google" := init_default "google" ]>
  (<[ "hunter" := init_default "hunter" ]>
  (<[ "github" := init_default "github" ]> ∅)))).

(** [lambda: provider.process(prompt)] for the provider called [name]. *)
Definition provider_call (env : Env) (name prompt : string) : @thunk World :=
  fun w =>
    (process env name prompt,
     with_provider_calls (with_now w (now w + duration env name))
                         (provider_calls w ++ [name])%list).

(** [circuit_breakers[name].execute(lambda: provider.process(prompt))]; the
    breaker is an object of the dictionary, mutated in place. *)
Definition execute_breaker (env : Env) (name prompt : string) (w : World)
  : outcome pydict * World :=
  match circuit_breakers w !! name with
  | None => (Raised (Exn KeyError ("'" +:+ name +:+ "'")), w)
  | Some cb =>
      let '(o, cb1, w1) := execute cb (provider_call env name prompt) w in
      (o, with_circuit_breakers w1 (<[ name := cb1 ]> (circuit_breakers w1)))
  end.

(** Lines 122-130: the protected call and its fallback to OpenAI. *)
Definition call_with_fallback (env : Env) (provider_name prompt : string)
    (w : World) : outcome pydict * World :=
  let '(o, w1) := execute_breaker env provider_name prompt w in
  match o with
  | Returned result => (Returned result, w1)
  | Raised e =>
      if decide (provider_name <> "openai")
      then execute_breaker env "openai" prompt w1
      else (Raised e, w1)
  end.

(** [result.get(key, dflt)] *)
Definition dict_get (d : pydict) (key : string) (dflt : value) : value :=
  default dflt (d !! key).

Definition usage_limit_exceeded : response :=
  Response
    (<[ "error" := VStr "Usage limit exceeded" ]>
     (<[ "message" := VStr "You have exceeded your usage limit for this month. Please upgrade your plan or wait until next month." ]> ∅))
    429.

Definition no_prompt : response :=
  Response (<[ "error" := VStr "No prompt provided" ]> ∅) 400.

Definition not_supported (provider_name : string) : response :=
  Response (<[ "error" := VStr ("Provider '" +:+ provider_name +:+
                                "' not supported") ]> ∅) 400.

(** [if not prompt]: the key is absent or the string is empty. *)
Definition falsy (prompt : option string) : bool :=
  match prompt with
  | None => true
  | Some s => bool_decide (s = "")
  end.

(** Lines 107-141 in the exception monad: the route after the usage check,
    up to the outer [except]. *)
Definition process_prompt_call (env : Env) (current_user : Z) (req : request)
    (w : World) : outcome response * World :=
  let prompt := req_prompt req in
  let provider_name := default "openai" (req_provider req) in
  if falsy prompt then (Returned no_prompt, w)
  else if negb (bool_decide (provider_name ∈ PROVIDERS))
  then (Returned (not_supported provider_name), w)
  else
    let '(o, w1) := call_with_fallback env provider_name (default "" prompt) w in
    match o with
    | Raised e => (Raised e, w1)
    | Returned result =>
        let '(_, w2) :=
          Usage.track_usage env current_user provider_name "process"
            (dict_get result "response_time" (VNum 0))
            (dict_get result "status" (VStr "error")) w1 in
        (Returned (Response result 200), w2)
    end.

(** [process_prompt(current_user)], below its decorators. *)
Definition process_prompt (env : Env) : handler :=
  fun current_user req w =>
    if negb (Usage.check_usage_limits env current_user w)
    then (usage_limit_exceeded, w)
    else
      let '(o, w1) := process_prompt_call env current_user req w in
      match o with
      | Returned resp => (resp, w1)
      | Raised e => (handle_error e, w1)
      end.

(** The route as registered: [@rate_limit] wraps [process_prompt]
    ([@token_required], outside it, supplies [current_user]). *)
Definition dispatch (env : Env) : handler :=
  RateLimiter.rate_limit (process_prompt env).

(** A request gets to the provider call of lines 122-130: the usage check
    passes, there is a prompt, and the provider named is one of
    [PROVIDERS]. *)
Definition reaches_call (env : Env) (current_user : Z) (req : request)
    (w : World) (provider_name prompt : string) : Prop :=
  Usage.check_usage_limits env current_user w = true /\
  req_prompt req = Some prompt /\ prompt <> "" /\
  default "openai" (req_provider req) = provider_name /\
  provider_name ∈ PROVIDERS.


(** The number of calls of provider [name] in a trace. *)
Definition calls_of (name : string) (trace : list string) : nat :=
  length (filter (fun p => p = name) trace).

End App.

(** ** Further code of the same files

    The rest of the modules above and the code they call: the provider
    classes, the decorators of auth.py, the other limit check of db.py, the
    usage report, and the routes that call a provider without a breaker. *)

(** *** Calls without a breaker *)

Module Calls.

(** The wrapped functions called one after the other, with no breaker in
    between: the number of them that raise, and the world they leave. *)
Fixpoint raised_calls {W : Type} (calls : list (@Breaker.thunk W)) (w : W) : Z :=
  match calls with
  | [] => 0
  | func :: rest =>
      let '(o, w1) := func w in
      (if is_raised o then 1 else 0) + raised_calls rest w1
  end.

Fixpoint world_after {W : Type} (calls : list (@Breaker.thunk W)) (w : W) : W :=
  match calls with
  | [] => w
  | func :: rest => world_after rest (func w).2
  end.

(** Calls through one breaker, the world changing between them (time
    passes, other requests are served): before each call the world is
    changed by the function that comes with it. *)
Fixpoint run_between {W : Type} (self : Breaker.CircuitBreaker)
    (steps : list ((W -> W) * @Breaker.thunk W)) (w : W)
  : Breaker.CircuitBreaker * W :=
  match steps with
  | [] => (self, w)
  | (pass, func) :: rest =>
      let '(_, self1, w1) := Breaker.execute self func (pass w) in
      run_between self1 rest w1
  end.

(** What [execute] keeps of a breaker created with name [nm], threshold
    [thr] and timeout [tmo]: it is closed, with the configuration and the
    [last_failure_time] of [__init__], and its counter is not negative. *)
Definition rests (nm : string) (thr tmo : Z) (b : Breaker.CircuitBreaker) : Prop :=
  Breaker.state b = Breaker.closed /\
  Breaker.name b = nm /\ Breaker.failure_threshold b = thr /\
  Breaker.reset_timeout b = tmo /\ Breaker.last_failure_time b = 0 /\
  0 <= Breaker.failures b.

End Calls.

(** *** db.py: the other limit check *)

Module Db.

(** [check_usage(user_id)].  [recent] is the test
    [timestamp > datetime('now', '-1 month')] of the query on a stored
    timestamp; [fails] says that sqlite raises. *)
Definition check_usage (fails : bool) (recent : Z -> bool) (user_id : Z)
    (w : World) : Z :=
  if fails then 0
  else Z.of_nat (length (filter (fun r => u_user_id r = user_id /\
                                          recent (u_timestamp r) = true)
                                (usage w))).

(** [is_within_limits(user_id)] *)
Definition is_within_limits (env : Env) (fails : bool) (recent : Z -> bool)
    (user_id : Z) (w : World) : bool :=
  let tier := Usage.get_user_tier env user_id w in
  let usage_count := check_usage fails recent user_id w in
  if decide (tier = "free") then bool_decide (usage_count < 50)
  else if decide (tier = "pro") then bool_decide (usage_count < 500)
  else if decide (tier = "enterprise") then true
  else bool_decide (usage_count < 10).

End Db.

(** *** usage_tracker.py: get_user_usage *)

Module Report.

(** The [WHERE] clause: the rows of the user, from [start_date] and up to
    [end_date] when these are given ([None] stands for a date that is not
    given or is empty). *)
Definition selected (user_id : Z) (start_date end_date : option Z)
    (r : usage_row) : Prop :=
  u_user_id r = user_id /\
  match start_date with Some d => d <= u_timestamp r | None => True end /\
  match end_date with Some d => u_timestamp r <= d | None => True end.

#[global] Instance selected_dec user_id start_date end_date r :
  Decision (selected user_id start_date end_date r).
Proof. unfold selected. destruct start_date, end_date; apply _. Defined.

Definition key (r : usage_row) : string * string := (u_provider r, u_endpoint r).

(** The number of rows of a list with a given provider and endpoint. *)
Definition count_of (k : string * string) (rows : list usage_row) : Z :=
  Z.of_nat (length (filter (fun r => key r = k) rows)).

(** [SELECT provider, endpoint, COUNT( * ) ... GROUP BY provider, endpoint]:
    one result row for each provider and endpoint that occur. *)
Definition group_by (rows : list usage_row) : list (string * string * Z) :=
  map (fun k => (k.1, k.2, count_of k rows)) (remove_dups (map key rows)).

(** The body of the loop of lines 91-95. *)
Definition add_group (usage_stats : gmap string (gmap string Z))
    (g : string * string * Z) : gmap string (gmap string Z) :=
  let '(provider, endpoint, count) := g in
  let usage_stats1 :=
    match usage_stats !! provider with
    | None => <[ provider := ∅ ]> usage_stats
    | Some _ => usage_stats
    end in
  <[ provider := <[ endpoint := count ]> (default ∅ (usage_stats1 !! provider)) ]>
    usage_stats1.

(** [get_user_usage(user_id, start_date, end_date)]; [fails] says that
    sqlite raises. *)
Definition get_user_usage (fails : bool) (user_id : Z)
    (start_date end_date : option Z) (w : World) : gmap string (gmap string Z) :=
  if fails then ∅
  else fold_left add_group
         (group_by (filter (selected user_id start_date end_date) (usage w))) ∅.

(** [usage_stats[provider][endpoint]], when both keys are there. *)
Definition stat (usage_stats : gmap string (gmap string Z))
    (provider endpoint : string) : option Z :=
  usage_stats !! provider ≫= fun per_endpoint => per_endpoint !! endpoint.

End Report.

(** *** auth.py *)

Module Auth.

(** The dictionary of a user; [tier] is [None] when the key is absent. *)
Record user := User {
  id : Z;
  username : string;
  email : string;
  role : string;
  tier : option string
}.

(** A route that takes the user's dictionary. *)
Definition uhandler := user -> request -> World -> response * World.

(** [get_current_user(user_id)] *)
Definition get_current_user (user_id : Z) : option user :=
  if decide (user_id = 1)
  then Some (User 1 "testuser" "test@example.com" "user" (Some "free"))
  else if decide (user_id = 2)
  then Some (User 2 "admin" "admin@example.com" "admin" (Some "enterprise"))
  else if decide (user_id = 3)
  then Some (User 3 "prouser" "pro@example.com" "user" (Some "pro"))
  else None.

Definition message (msg : string) : pydict := <[ "message" := VStr msg ]> ∅.

(** [admin_required(f)] *)
Definition admin_required (f : uhandler) : uhandler :=
  fun current_user req w =>
    if decide (role current_user <> "admin")
    then (Response (message "Admin privileges required") 403, w)
    else f current_user req w.

(** [tier_levels.get(tier, 0)] *)
Definition tier_levels : gmap string Z :=
  <[ "free" := 0 ]> (<[ "pro" := 1 ]> (<[ "enterprise" := 2 ]> ∅)).

Definition tier_level (t : string) : Z := default 0 (tier_levels !! t).

Definition tier_refused (user_tier required_tier : string) : response :=
  Response
    (<[ "message" := VStr ("This feature requires " +:+ required_tier +:+
                           " tier or higher") ]>
     (<[ "current_tier" := VStr user_tier ]>
     (<[ "required_tier" := VStr required_tier ]> ∅)))
    403.

(** [tier_required(required_tier)(f)] *)
Definition tier_required (required_tier : string) (f : uhandler) : uhandler :=
  fun current_user req w =>
    let user_tier := default "free" (tier current_user) in
    if decide (tier_level user_tier < tier_level required_tier)
    then (tier_refused user_tier required_tier, w)
    else f current_user req w.

(** [s.split(' ')]: the pieces of [s] between single spaces. *)
Fixpoint split_space (s : string) : list string :=
  match s with
  | EmptyString => [EmptyString]
  | String c rest =>
      if decide (c = " "%char) then EmptyString :: split_space rest
      else match split_space rest with
           | piece :: pieces => String c piece :: pieces
           | [] => [String c EmptyString]
           end
  end.

(** The string has no space in it. *)
Fixpoint no_space (s : string) : bool :=
  match s with
  | EmptyString => true
  | String c rest => if decide (c = " "%char) then false else no_space rest
  end.

(** What [jwt.decode] does with a token: the payload, of which only the key
    [user_id] is read ([None]: the key is absent; the value is an integer,
    as [generate_token] writes it), or one of the exceptions the decorator
    tells apart. *)
Inductive jwt_result :=
  | Payload (user_id : option Z)
  | ExpiredSignatureError
  | InvalidTokenError
  | OtherJwtError.

(** The parts of the HTTP request the decorator reads, and the JSON body.
    The headers are looked up under the spelling [Authorization]. *)
Record http_request := HttpRequest {
  headers : gmap string string;
  cookies : gmap string string;
  json : request
}.

(** Lines 56-67: the token of a request, if any. *)
Definition token_of (r : http_request) : option string :=
  let token :=
    match headers r !! "Authorization" with
    | Some auth_header =>
        if String.prefix "Bearer " auth_header
        then split_space auth_header !! 1%nat
        else None
    | None => None
    end in
  match token with
  | Some (String c s) => Some (String c s)
  | _ => cookies r !! "token"        (* not token *)
  end.

(** [token_required(f)] *)
Definition token_required (jwt_decode : string -> jwt_result) (f : uhandler)
    (r : http_request) (w : World) : response * World :=
  match token_of r with
  | None | Some EmptyString => (Response (message "Token is missing") 401, w)
  | Some token =>
      match jwt_decode token with
      | Payload (Some user_id) =>
          match get_current_user user_id with
          | None => (Response (message "User not found") 401, w)
          | Some current_user => f current_user (json r) w
          end
      | Payload None => (Response (message "Authentication error") 500, w)
      | ExpiredSignatureError => (Response (message "Token has expired") 401, w)
      | InvalidTokenError => (Response (message "Invalid token") 401, w)
      | OtherJwtError => (Response (message "Authentication error") 500, w)
      end
  end.

(** A route written for [current_user['id']] only, as a route on the user's
    dictionary. *)
Definition on_id (f : handler) : uhandler :=
  fun current_user req w => f (id current_user) req w.

End Auth.

(** *** The provider classes (openai.py, anthropic.py, google.py, hunter.py,
    github.py) *)

Module Providers.

(** What the [try] body of a [process] method comes to before its [return]:
    the text of the answer and the time the request took, or an exception,
    with the time since [start_time] when that variable is bound. *)
Inductive attempt :=
  | Answered (text : string) (response_time : Z)
  | Failed (e : exn) (elapsed : option Z).

Definition success (provider model text : string) (response_time : Z) : pydict :=
  <[ "text" := VStr text ]>
  (<[ "model" := VStr model ]>
  (<[ "provider" := VStr provider ]>
  (<[ "response_time" := VNum response_time ]>
  (<[ "status" := VStr "success" ]> ∅)))).

Definition failure (provider err : string) (response_time : Z) : pydict :=
  <[ "error" := VStr err ]>
  (<[ "provider" := VStr provider ]>
  (<[ "status" := VStr "error" ]>
  (<[ "response_time" := VNum response_time ]> ∅))).

(** [OpenAIProvider.process] and [AnthropicProvider.process], which differ in
    the name of the provider and the default model only. *)
Definition chat_process (provider model : string) (timeout : Z) (a : attempt)
  : outcome pydict :=
  match a with
  | Answered text response_time =>
      Returned (success provider model text response_time)
  | Failed e elapsed =>
      if isinstance e Timeout then
        Returned (failure provider
          ("Request timed out after " +:+ pretty timeout +:+ " seconds") timeout)
      else if isinstance e RequestException then
        Returned (failure provider ("API request failed: " +:+ exn_str e)
                          (default 0 elapsed))
      else
        Returned (failure provider ("Unexpected error: " +:+ exn_str e)
                          (default 0 elapsed))
  end.

Definition OpenAIProvider_process : attempt -> outcome pydict :=
  chat_process "openai" "gpt-3.5-turbo" 10.

Definition AnthropicProvider_process : attempt -> outcome pydict :=
  chat_process "anthropic" "claude-3-sonnet-20240229" 10.

(** [GoogleAIProvider.process]: one [except] clause, and no response time in
    the dictionary of an error. *)
Definition GoogleAIProvider_process (a : attempt) : outcome pydict :=
  match a with
  | Answered text response_time =>
      Returned (success "google" "gemini-pro" text response_time)
  | Failed e _ =>
      Returned (<[ "error" := VStr ("Unexpected error: " +:+ exn_str e) ]>
                (<[ "provider" := VStr "google" ]>
                (<[ "status" := VStr "error" ]> ∅)))
  end.

(** [HunterProvider] and [GitHubProvider] have no method [process]: the
    attribute lookup raises [AttributeError]. *)
Definition no_process (class : string) : exn :=
  Exn OtherException ("'" +:+ class +:+ "' object has no attribute 'process'").

(** [PROVIDERS[name].process(prompt)] for a key [name] of [PROVIDERS], [net]
    being what the request to each vendor comes to. *)
Definition process_of (net : string -> string -> attempt) (name prompt : string)
  : outcome pydict :=
  if decide (name = "openai") then OpenAIProvider_process (net name prompt)
  else if decide (name = "anthropic") then AnthropicProvider_process (net name prompt)
  else if decide (name = "google") then GoogleAIProvider_process (net name prompt)
  else if decide (name = "hunter") then Raised (no_process "HunterProvider")
  else Raised (no_process "GitHubProvider").

(** The prompts of [process_web_design] and [process_sales]. *)
Definition web_design_prompt (prompt : string) : string :=
  "Generate " +:+ prompt +:+
  " using Tailwind CSS and clean HTML. Provide well-structured, responsive code that works across devices.".

Definition sales_prompt (prompt : string) : string :=
  "Write a professional, friendly " +:+ prompt +:+
  " for sales outreach. Make it persuasive but not pushy, personalized, and with a clear call to action.".

(** The vendors a request can name whose class has a [process] method. *)
Definition chat_providers : list string := ["openai"; "anthropic"; "google"].

End Providers.

(** *** app.py: the routes around a provider *)

Module Routes.
Import App.

(** Lines 153-176 and 185-207: a route that calls a method of one provider
    directly, with the prompt rewritten by that method. *)
Definition direct_route (env : Env) (provider endpoint : string)
    (rewrite_prompt : string -> string) : handler :=
  fun current_user req w =>
    let prompt := req_prompt req in
    if falsy prompt then (no_prompt, w)
    else
      let '(o, w1) :=
        provider_call env provider (rewrite_prompt (default "" prompt)) w in
      match o with
      | Raised e => (handle_error e, w1)
      | Returned result =>
          let '(_, w2) :=
            Usage.track_usage env current_user provider endpoint
              (dict_get result "response_time" (VNum 0))
              (dict_get result "status" (VStr "error")) w1 in
          (Response result 200, w2)
      end.

(** [web_design(current_user)] and [sales(current_user)] *)
Definition web_design (env : Env) : handler :=
  direct_route env "openai" "web-design" Providers.web_design_prompt.

Definition sales (env : Env) : handler :=
  direct_route env "anthropic" "sales" Providers.sales_prompt.

(** The routes as registered, with their decorators. *)
Definition web_design_route (jwt_decode : string -> Auth.jwt_result) (env : Env)
  : Auth.http_request -> World -> response * World :=
  Auth.token_required jwt_decode
    (Auth.tier_required "pro"
       (Auth.on_id (RateLimiter.rate_limit (web_design env)))).

Definition sales_route (jwt_decode : string -> Auth.jwt_result) (env : Env)
  : Auth.http_request -> World -> response * World :=
  Auth.token_required jwt_decode
    (Auth.tier_required "pro"
       (Auth.on_id (RateLimiter.rate_limit (sales env)))).

(** Requests to /api/process one after the other, each with its user and
    with what the outside world does during it. *)
Fixpoint serve_process (reqs : list (Env * Z * request)) (w : World) : World :=
  match reqs with
  | [] => w
  | (env, current_user, req) :: rest =>
      serve_process rest (dispatch env current_user req w).2
  end.

(** The providers of an environment are the classes of the repository. *)
Definition deployed (env : Env) : Prop :=
  exists net, process env = Providers.process_of net.

(** The breakers of the vendors whose class has a [process] method are as
    they were created. *)
Definition chat_breakers_untouched (w : World) : Prop :=
  forall name, name ∈ Providers.chat_providers ->
    circuit_breakers w !! name = Some (Breaker.init_default name).

End Routes.

(** ** Concrete calls and states used in the examples *)

Module Sample.
Import Breaker.

Definition ok_result : pydict :=
  <[ "text" := VStr "hello" ]>
  (<[ "provider" := VStr "openai" ]>
  (<[ "response_time" := VNum 1 ]>
  (<[ "status" := VStr "success" ]> ∅))).

(** Calls in a world that is only a clock; every call takes one tick. *)
Definition ok_call : @thunk Z := fun t => (Returned ok_result, t + 1).

Definition failing_call : @thunk Z :=
  fun t => (Raised (Exn Timeout "timed out"), t + 1).

(** A breaker with threshold 5 after two failed calls. *)
Definition two_failures : CircuitBreaker :=
  (run (init "anthropic" 5 60) [failing_call; failing_call] 0).1.

(** A breaker with threshold 3 after two failed calls, and after three. *)
Definition two_of_three : CircuitBreaker :=
  (run (init "anthropic" 3 60) [failing_call; failing_call] 0).1.

Definition three_of_three : CircuitBreaker :=
  (run (init "anthropic" 3 60)
       [failing_call; failing_call; failing_call] 0).1.

(** A breaker whose state has been set to 'open', with a failure recorded
    at time 100.  [execute] does not bring a breaker there itself. *)
Definition opened_at_100 : CircuitBreaker :=
  Mk "anthropic" 1 60 1 open 100.

(** Ten requests of user 2, whose tier is 'admin', at time 0. *)
Definition admin_full : gmap Z window :=
  RateLimiter.serve RateLimiter.get_user_tier (replicate 10 (2, 0)) ∅.

(** Fifty requests of user 1, whose tier is 'free', at time 0. *)
Definition free_full : gmap Z window :=
  RateLimiter.serve RateLimiter.get_user_tier (replicate 50 (1, 0)) ∅.

(** The state at start-up, at time 1000. *)
Definition world0 : World :=
  MkWorld 1000 ∅ App.initial_circuit_breakers [] ∅ [].

Definition timed_out : exn := Exn Timeout "timed out".

(** Only OpenAI answers. *)
Definition env_openai_ok : Env :=
  MkEnv (fun name _ => if decide (name = "openai") then Returned ok_result
                       else Raised timed_out)
        (fun _ => 1) (fun _ => 0) false false None.

Definition req_anthropic : request := Request (Some "hi") (Some "anthropic").

Fixpoint repeat_dispatch (env : Env) (n : nat) (current_user : Z)
    (req : request) (w : World) : World :=
  match n with
  | O => w
  | S n' => repeat_dispatch env n' current_user req
              (App.dispatch env current_user req w).2
  end.

(** A breaker of Anthropic set to 'open', with five failures, the last one
    at time 990; and the state at start-up with this breaker in the place of
    Anthropic's. *)
Definition anthropic_breaker : CircuitBreaker :=
  Mk "anthropic" 5 60 5 open 990.

Definition anthropic_open : World :=
  with_circuit_breakers world0
    (<[ "anthropic" := anthropic_breaker ]> App.initial_circuit_breakers).

(** User 1, on the free tier, with fifty calls this month. *)
Definition over_limit : World :=
  MkWorld 1000 ∅ App.initial_circuit_breakers
    (replicate 50 (UsageRow 1 "openai" "process" 500 (VNum 1)
                            (VStr "success") None))
    ∅ [].

End Sample.

(** ** Concrete requests and vendors used in the further examples *)

Module Sample2.
Import Breaker Sample.

(** Three failing calls, the world left alone between them. *)
Definition three_failing_steps : list ((Z -> Z) * @thunk Z) :=
  [(fun t => t, failing_call); (fun t => t, failing_call);
   (fun t => t, failing_call)].

(** Anthropic does not answer in time; the other vendors answer. *)
Definition net_anthropic_slow (name prompt : string) : Providers.attempt :=
  if decide (name = "anthropic") then Providers.Failed timed_out (Some 10)
  else Providers.Answered "hello" 1.

Definition env_deployed : Env :=
  MkEnv (Providers.process_of net_anthropic_slow) (fun _ => 1) (fun _ => 0)
        false false None.


(** The same with a database that fails in the query of the usage check. *)
Definition env_db_down : Env :=
  MkEnv (Providers.process_of net_anthropic_slow) (fun _ => 1) (fun _ => 0)
        false true None.

Definition req_hunter : request := Request (Some "hi") (Some "hunter").

(** A request with the token "abc" in its header, which decodes to user 3,
    one with the token of user 1, and one with a cookie only. *)
Definition jwt_decode (token : string) : Auth.jwt_result :=
  if decide (token = "abc") then Auth.Payload (Some 3)
  else if decide (token = "free") then Auth.Payload (Some 1)
  else Auth.InvalidTokenError.

Definition http_abc : Auth.http_request :=
  Auth.HttpRequest {[ "Authorization" := "Bearer abc" ]} {[ "token" := "free" ]}
                   req_anthropic.

Definition http_free : Auth.http_request :=
  Auth.HttpRequest {[ "Authorization" := "Bearer free" ]} ∅ req_anthropic.

Definition http_cookie : Auth.http_request :=
  Auth.HttpRequest ∅ {[ "token" := "abc" ]} req_anthropic.

(** A route that answers 200 and changes nothing. *)
Definition ok_route : Auth.uhandler :=
  fun _ _ w => (Response ok_result 200, w).

Definition a_row (user_id : Z) (provider endpoint : string) (t : Z) : usage_row :=
  UsageRow user_id provider endpoint t (VNum 1) (VStr "success") None.

(** A usage table with three rows of user 1 and one of user 3. *)
Definition world_with_usage : World :=
  MkWorld 1000 ∅ App.initial_circuit_breakers
    [a_row 1 "openai" "process" 10; a_row 1 "openai" "process" 20;
     a_row 3 "openai" "process" 30; a_row 1 "anthropic" "sales" 40]
    ∅ [].

End Sample2.

(** * Properties *)

(** ** The circuit breaker *)

Section BreakerFacts.
Import Breaker Calls.
Context {W : Type}.

(** An open breaker: [time.time()] is evaluated before anything else. *)
Lemma execute_open b (f : @thunk W) w :
  state b = open -> execute b f w = (Raised name_error, b, w).
Proof. intros E. unfold execute. by rewrite E. Qed.

(** A breaker that is not open makes the call; a result is handed on. *)
Lemma execute_returned b (f : @thunk W) w r w1 :
  state b <> open -> f w = (Returned r, w1) ->
  execute b f w = (Returned r, after_return b, w1).
Proof.
  intros E Hf. unfold execute, call_through.
  destruct (state b); try congruence; by rewrite Hf.
Qed.

(** When the call raises, the counter goes up and [NameError] comes out. *)
Lemma execute_raised b (f : @thunk W) w e w1 :
  state b <> open -> f w = (Raised e, w1) ->
  execute b f w = (Raised name_error, set_failures b (failures b + 1), w1).
Proof.
  intros E Hf. unfold execute, call_through, after_raise.
  destruct (state b); try congruence; by rewrite Hf.
Qed.

Lemma rests_init nm thr tmo : rests nm thr tmo (init nm thr tmo).
Proof. unfold rests, init; simpl. repeat split; lia || auto. Qed.

Lemma rests_execute nm thr tmo b (f : @thunk W) w :
  rests nm thr tmo b -> rests nm thr tmo (execute b f w).1.2.
Proof.
  intros (Hs & Hn & Ht & Hr & Hl & Hf).
  unfold execute, call_through, after_return, after_raise. rewrite Hs.
  destruct (f w) as [[r|e] w1]; simpl; rewrite ?Hs; unfold rests; simpl;
    repeat split; auto; lia.
Qed.

Lemma rests_run nm thr tmo (calls : list (@thunk W)) :
  forall b w, rests nm thr tmo b -> rests nm thr tmo (run b calls w).1.
Proof.
  induction calls as [|f rest IH]; intros b w Hr; simpl; [done |].
  pose proof (rests_execute nm thr tmo b f w Hr) as H1.
  destruct (execute b f w) as [[o b1] w1]. by apply IH.
Qed.

Lemma rests_run_between nm thr tmo (steps : list ((W -> W) * @thunk W)) :
  forall b w, rests nm thr tmo b ->
              rests nm thr tmo (run_between b steps w).1.
Proof.
  induction steps as [|[pass f] rest IH]; intros b w Hr; simpl; [done |].
  pose proof (rests_execute nm thr tmo b f (pass w) Hr) as H1.
  destruct (execute b f (pass w)) as [[o b1] w1]. by apply IH.
Qed.

(** C2, as the code has it: a call that returns while the breaker is closed
    leaves the breaker, and so its failure counter, as it was; the counter
    goes back to 0 only when a call returns in state half-open. *)
Theorem success_while_closed_keeps_breaker b (f : @thunk W) w r w1 :
  f w = (Returned r, w1) ->
  (state b = closed -> execute b f w = (Returned r, b, w1)) /\
  (state b = half_open ->
     execute b f w = (Returned r, set_failures (set_state b closed) 0, w1)).
Proof.
  intros Hf. unfold execute, call_through, after_return.
  split; intros E; rewrite E, Hf; simpl; by rewrite ?E.
Qed.
End BreakerFacts.

(** *** The breaker on concrete calls *)

Section BreakerExamples.
Import Breaker Sample.

Example two_failures_state :
  state two_failures = closed /\ failures two_failures = 2.
Proof. by vm_compute. Qed.

(** C2 fails as stated: a closed breaker that has counted two failures
    still counts two after a call that returns. *)
Lemma success_while_closed_not_reset :
  state two_failures = closed /\
  exists b', execute two_failures ok_call 2 = (Returned ok_result, b', 3) /\
             failures b' = 2 /\ failures b' <> 0.
Proof.
  split; [reflexivity |]. eexists. split; [reflexivity |].
  split; [reflexivity | by vm_compute].
Qed.

Lemma success_while_closed_keeps_breaker_witness :
  execute two_failures ok_call 2 = (Returned ok_result, two_failures, 3).
Proof.
  apply (success_while_closed_keeps_breaker two_failures ok_call 2
           ok_result 3); reflexivity.
Defined.


(** C7 on the code: with a threshold of 3, the third failure in a row
    brings the counter to the threshold and the breaker is still closed;
    it is closed after any sequence of calls, [self.state = 'open'] not
    being reached. *)
Theorem breaker_stays_closed_at_threshold :
  state two_of_three = closed /\ failures two_of_three = 2 /\
  state three_of_three = closed /\ failures three_of_three = 3 /\
  failure_threshold three_of_three = 3 /\
  last_failure_time three_of_three = 0 /\
  forall (calls : list (@thunk Z)) (t : Z),
    state (run (init "anthropic" 3 60) calls t).1 = closed.
Proof.
  repeat split; try by vm_compute.
  intros calls t.
  by destruct (rests_run "anthropic" 3 60 calls _ t (rests_init "anthropic" 3 60)).
Qed.
End BreakerExamples.

(** ** The rate limiter *)

Section RateLimiterFacts.
Import RateLimiter.

Lemma max_requests_bounds tier : 10 <= max_requests tier <= 5000.
Proof.
  unfold max_requests, limits. repeat case_decide; simpl; lia.
Qed.

Lemma within_limits_empty tier_of : within_limits tier_of ∅.
Proof. intros u r H. by rewrite lookup_empty in H. Qed.

Lemma within_limits_insert tier_of (store : gmap Z window) u r :
  within_limits tier_of store ->
  0 <= requests r <= max_requests (tier_of u) ->
  within_limits tier_of (<[ u := r ]> store).
Proof.
  intros Hw Hr v r' Hl.
  destruct (decide (u = v)) as [->|Hne].
  - rewrite lookup_insert_eq in Hl. by inversion Hl; subst.
  - rewrite lookup_insert_ne in Hl by done. by apply (Hw v).
Qed.

Lemma within_limits_ensure tier_of store u t :
  within_limits tier_of store -> within_limits tier_of (ensure_record u t store).
Proof.
  intros Hw. unfold ensure_record. destruct (store !! u); [done |].
  apply within_limits_insert; [done |]. simpl.
  pose proof (max_requests_bounds (tier_of u)). lia.
Qed.

Lemma within_limits_roll tier_of tier store u t :
  within_limits tier_of store -> within_limits tier_of (roll_window tier u t store).
Proof.
  intros Hw. unfold roll_window. case_decide; [| done].
  apply within_limits_insert; [done |]. simpl.
  pose proof (max_requests_bounds (tier_of u)). lia.
Qed.

Lemma ensure_record_present (store : gmap Z window) u t :
  is_Some (ensure_record u t store !! u).
Proof.
  unfold ensure_record. destruct (store !! u) eqn:E.
  - rewrite E. eauto.
  - rewrite lookup_insert_eq. eauto.
Qed.

Lemma roll_window_present tier (store : gmap Z window) u t :
  is_Some (store !! u) -> is_Some (roll_window tier u t store !! u).
Proof.
  intros H. unfold roll_window. case_decide; [| done].
  rewrite lookup_insert_eq. eauto.
Qed.

(** The record read at line 66 is in the store. *)
Lemma current_window_stored tier (store : gmap Z window) u t :
  roll_window tier u t (ensure_record u t store) !! u
    = Some (current_window tier u t store).
Proof.
  unfold current_window, record_of.
  destruct (roll_window_present tier _ u t (ensure_record_present store u t))
    as [r ->]. reflexivity.
Qed.

Lemma within_limits_allow tier_of store u t :
  within_limits tier_of store ->
  within_limits tier_of (allow (tier_of u) u t store).2.
Proof.
  intros Hw. unfold allow.
  pose proof (within_limits_roll tier_of (tier_of u) _ u t
                (within_limits_ensure tier_of store u t Hw)) as Hw2.
  pose proof (current_window_stored (tier_of u) store u t) as Hc.
  fold (current_window (tier_of u) u t store).
  case_decide as Hd; simpl; [done |].
  apply within_limits_insert; [done |]. simpl.
  apply Hw2 in Hc. lia.
Qed.

Lemma within_limits_serve tier_of reqs :
  forall store, within_limits tier_of store ->
                within_limits tier_of (serve tier_of reqs store).
Proof.
  induction reqs as [|[u t] rest IH]; intros store Hw; simpl; [done |].
  apply IH. by apply within_limits_allow.
Qed.

(** A request that is turned down found a record that was neither created
    nor reset by it. *)
Lemma full_window_is_stored tier (store : gmap Z window) u t :
  requests (current_window tier u t store) >= max_requests tier ->
  roll_window tier u t (ensure_record u t store) = store.
Proof.
  pose proof (max_requests_bounds tier) as Hb.
  unfold current_window, roll_window, ensure_record, record_of.
  destruct (store !! u) as [r|] eqn:E.
  - rewrite E. simpl. case_decide; [| done].
    rewrite lookup_insert_eq. simpl. lia.
  - rewrite lookup_insert_eq. simpl. case_decide.
    + rewrite lookup_insert_eq. simpl. lia.
    + rewrite lookup_insert_eq. simpl. lia.
Qed.

Lemma roll_ensure_insert tier (store : gmap Z window) u t r :
  <[ u := r ]> (roll_window tier u t (ensure_record u t store)) = <[ u := r ]> store.
Proof.
  unfold roll_window, ensure_record.
  destruct (store !! u) eqn:E; repeat case_decide;
    by rewrite ?insert_insert_eq.
Qed.

(** The two ways out of [allow], on any store. *)
Lemma allow_cases tier (store : gmap Z window) u t :
  let r := current_window tier u t store in
  (requests r >= max_requests tier ->
     allow tier u t store = (Rejected, store)) /\
  (requests r < max_requests tier ->
     allow tier u t store
       = (Granted, <[ u := Window (requests r + 1) (window_start r) ]> store)).
Proof.
  intros r. unfold allow. fold (current_window tier u t store). fold r.
  split; intros Hr.
  - case_decide; [| lia]. by rewrite full_window_is_stored.
  - case_decide; [lia |]. by rewrite roll_ensure_insert.
Qed.

(** C8: in every store reached from the empty one, each user's count is at
    most the [max_requests] of the user's tier; a request that finds the
    count of its window at the limit is turned down and the store is left
    as it was; any other request is admitted and the count of its window
    goes up by one, still within the limit. *)
Theorem requests_never_exceed_limit tier_of reqs store user_id t :
  serve tier_of reqs ∅ = store ->
  let tier := tier_of user_id in
  let r := current_window tier user_id t store in
  within_limits tier_of store /\
  requests r <= max_requests tier /\
  (requests r >= max_requests tier ->
     allow tier user_id t store = (Rejected, store)) /\
  (requests r < max_requests tier ->
     allow tier user_id t store
       = (Granted, <[ user_id := Window (requests r + 1) (window_start r) ]> store)
     /\ requests r + 1 <= max_requests tier).
Proof.
  intros Hs tier r.
  assert (Hw : within_limits tier_of store).
  { rewrite <- Hs. apply within_limits_serve, within_limits_empty. }
  pose proof (within_limits_roll tier_of tier _ user_id t
                (within_limits_ensure tier_of store user_id t Hw)) as Hw2.
  pose proof (current_window_stored tier store user_id t) as Hc.
  apply Hw2 in Hc. fold r in Hc. fold tier in Hc.
  split; [done |]. split; [lia |].
  destruct (allow_cases tier store user_id t) as [Hrej Hadm]. fold r in Hrej, Hadm.
  split; [exact Hrej |]. intros Hr. split; [by apply Hadm | lia].
Qed.

Lemma time_window_positive tier : 0 < time_window tier.
Proof. unfold time_window, limits. repeat case_decide; simpl; lia. Qed.

Lemma current_window_cases tier (store : gmap Z window) u t :
  current_window tier u t store =
    match store !! u with
    | Some s => if decide (t - window_start s > time_window tier)
                then Window 0 t else s
    | None => Window 0 t
    end.
Proof.
  unfold current_window, roll_window, ensure_record, record_of.
  destruct (store !! u) as [s|] eqn:E.
  - rewrite E. simpl. case_decide; [by rewrite lookup_insert_eq | by rewrite E].
  - rewrite lookup_insert_eq. simpl.
    case_decide; by rewrite lookup_insert_eq.
Qed.

(** Whatever the tier, a request that is admitted changes the store. *)
Lemma granted_request_is_counted tier (store : gmap Z window) u t :
  (allow tier u t store).1 = Granted -> (allow tier u t store).2 <> store.
Proof.
  unfold allow. pose proof (time_window_positive tier) as Hb.
  fold (current_window tier u t store).
  case_decide as Hd; simpl; [done |]. intros _ Heq.
  rewrite roll_ensure_insert in Heq.
  pose proof (f_equal (fun m : gmap Z window => m !! u) Heq) as Hl.
  simpl in Hl. rewrite lookup_insert_eq in Hl.
  pose proof (current_window_cases tier store u t) as Hc.
  rewrite <- Hl in Hc. simpl in Hc.
  destruct (current_window tier u t store) as [n ws]. simpl in *.
  case_decide; inversion Hc; lia.
Qed.
End RateLimiterFacts.

(** *** The rate limiter on concrete requests *)

Section RateLimiterExamples.
Import RateLimiter Sample.

Example free_full_store : free_full = {[ 1 := Window 50 0 ]}.
Proof. by vm_compute. Qed.

(** The free tier: the 51st request of the hour is turned down, and the
    first one after the window has passed is admitted with a count of 1. *)
Example free_tier_scenario :
  allow "free" 1 3600 free_full = (Rejected, free_full) /\
  allow "free" 1 3601 free_full = (Granted, {[ 1 := Window 1 3601 ]}).
Proof. split; by vm_compute. Qed.

Lemma requests_never_exceed_limit_witness :
  allow "free" 1 10 free_full = (Rejected, free_full) /\
  allow "free" 1 10 ∅ = (Granted, {[ 1 := Window 1 10 ]}).
Proof.
  split.
  - destruct (requests_never_exceed_limit get_user_tier (replicate 50 (1, 0))
                free_full 1 10 eq_refl) as (_ & _ & Hrej & _).
    apply Hrej. by vm_compute.
  - destruct (requests_never_exceed_limit get_user_tier [] ∅ 1 10 eq_refl)
      as (_ & _ & _ & Hadm).
    apply Hadm. by vm_compute.
Defined.

(** C5 on the code: user 2 has the tier 'admin', the one rate_limiter.py
    says bypasses rate limiting.  Its first request is counted in the
    store, and after ten requests the eleventh is turned down. *)
Theorem admin_tier_is_rate_limited :
  get_user_tier 2 = "admin" /\
  max_requests "admin" = 10 /\
  allow (get_user_tier 2) 2 0 ∅ = (Granted, {[ 2 := Window 1 0 ]}) /\
  admin_full = {[ 2 := Window 10 0 ]} /\
  allow (get_user_tier 2) 2 0 admin_full = (Rejected, admin_full).
Proof. repeat split; by vm_compute. Qed.
End RateLimiterExamples.

(** ** The route /api/process *)

Section DispatchFacts.
Import Breaker App Providers Routes.



(** A breaker that is not open calls its provider once; a result is handed
    on, an exception comes out as [NameError]. *)
Lemma execute_breaker_call env name prompt w cb :
  circuit_breakers w !! name = Some cb ->
  state cb <> open ->
  exists w1,
    execute_breaker env name prompt w
      = (match process env name prompt with
         | Returned r => Returned r
         | Raised _ => Raised name_error
         end, w1) /\
    provider_calls w1 = (provider_calls w ++ [name])%list /\
    usage w1 = usage w /\ rate_limit_store w1 = rate_limit_store w /\
    users w1 = users w /\
    forall other, other <> name ->
      circuit_breakers w1 !! other = circuit_breakers w !! other.
Proof.
  intros Hl E. unfold execute_breaker. rewrite Hl.
  unfold execute, call_through, after_raise, provider_call.
  destruct (state cb) eqn:Es; try congruence;
    destruct (process env name prompt) as [r|e]; simpl;
    eexists; (split; [reflexivity |]); simpl; repeat split; auto;
    intros other Hne; by rewrite lookup_insert_ne.
Qed.

(** No call through a breaker touches the usage table, the rate-limit
    store or the table of users. *)
Lemma execute_breaker_frame env name prompt w :
  let w1 := (execute_breaker env name prompt w).2 in
  usage w1 = usage w /\ rate_limit_store w1 = rate_limit_store w /\
  users w1 = users w.
Proof.
  unfold execute_breaker.
  destruct (circuit_breakers w !! name) as [cb|]; [| done].
  unfold execute, call_through, after_raise, provider_call.
  destruct (state cb); destruct (process env name prompt); simpl; auto.
Qed.

Lemma call_with_fallback_frame env name prompt w :
  let w1 := (call_with_fallback env name prompt w).2 in
  usage w1 = usage w /\ rate_limit_store w1 = rate_limit_store w /\
  users w1 = users w.
Proof.
  unfold call_with_fallback.
  pose proof (execute_breaker_frame env name prompt w) as H1.
  destruct (execute_breaker env name prompt w) as [[r|e] w1]; simpl in *;
    [done |].
  case_decide; [| done].
  pose proof (execute_breaker_frame env "openai" prompt w1) as H2.
  simpl in H2. destruct H1 as (? & ? & ?), H2 as (? & ? & ?).
  repeat split; congruence.
Qed.

Lemma track_usage_returns env u provider endpoint rt st w :
  (Usage.track_usage env u provider endpoint rt st w).1 = Returned tt.
Proof.
  unfold Usage.track_usage.
  by destruct (Usage.track_usage_body _ _ _) as [[[]|e] table].
Qed.

(** [track_usage] changes nothing but the usage table, by at most the row
    it is given; without a database failure, by exactly that row. *)
Lemma track_usage_effect env u provider endpoint rt st w :
  let w1 := (Usage.track_usage env u provider endpoint rt st w).2 in
  let row := UsageRow u provider endpoint (now w) rt st None in
  w1 = with_usage w (usage w1) /\
  (usage w1 = usage w \/ usage w1 = (usage w ++ [row])%list) /\
  (track_fault env = None -> usage w1 = (usage w ++ [row])%list).
Proof.
  unfold Usage.track_usage, Usage.track_usage_body.
  destruct (track_fault env) as [[]|]; simpl; repeat split; auto; congruence.
Qed.

(** The route, for a request that gets to the provider call. *)
Lemma process_prompt_reaches env u req w pn prompt :
  reaches_call env u req w pn prompt ->
  process_prompt env u req w =
    match call_with_fallback env pn prompt w with
    | (Returned result, w1) =>
        (Response result 200,
         (Usage.track_usage env u pn "process"
            (dict_get result "response_time" (VNum 0))
            (dict_get result "status" (VStr "error")) w1).2)
    | (Raised e, w1) => (handle_error e, w1)
    end.
Proof.
  intros (Hu & Hp & Hne & Hd & Hin).
  unfold process_prompt, process_prompt_call. rewrite Hu, Hp, Hd. simpl.
  rewrite bool_decide_eq_false_2 by done.
  rewrite bool_decide_eq_true_2 by done. simpl.
  destruct (call_with_fallback env pn prompt w) as [[r|e] w1]; [| done].
  by destruct (Usage.track_usage _ _ _ _ _ _ _).
Qed.


Lemma process_of_chat_returns net name prompt :
  name ∈ chat_providers -> exists d, process_of net name prompt = Returned d.
Proof.
  unfold chat_providers. rewrite !elem_of_cons.
  intros [-> | [-> | [-> | Hin]]]; [| | | by apply elem_of_nil in Hin];
    unfold process_of; simpl;
    unfold OpenAIProvider_process, AnthropicProvider_process,
      GoogleAIProvider_process, chat_process;
    destruct (net _ prompt) as [text rt | e el]; eauto;
    repeat match goal with |- context [if ?b then _ else _] => destruct b end;
    eauto.
Qed.

Lemma chat_process_returns env name prompt :
  deployed env -> name ∈ chat_providers ->
  exists d, process env name prompt = Returned d.
Proof.
  intros [net Hnet] Hin. rewrite Hnet. by apply process_of_chat_returns.
Qed.

Lemma circuit_breakers_track_usage env u provider endpoint rt st w :
  circuit_breakers (Usage.track_usage env u provider endpoint rt st w).2
  = circuit_breakers w /\
  provider_calls (Usage.track_usage env u provider endpoint rt st w).2
  = provider_calls w /\
  rate_limit_store (Usage.track_usage env u provider endpoint rt st w).2
  = rate_limit_store w.
Proof.
  destruct (track_usage_effect env u provider endpoint rt st w) as (Hw & _).
  simpl in Hw. by rewrite Hw.
Qed.

(** A call through the breaker of one provider leaves the breakers of the
    others alone. *)
Lemma execute_breaker_others env name prompt w other :
  other <> name ->
  circuit_breakers (execute_breaker env name prompt w).2 !! other
  = circuit_breakers w !! other.
Proof.
  intros Hne. unfold execute_breaker.
  destruct (circuit_breakers w !! name) as [cb|]; [| done].
  unfold execute, call_through, provider_call.
  destruct (state cb); repeat case_decide;
    destruct (process env name prompt); simpl;
    rewrite ?lookup_insert_ne by done; done.
Qed.

(** A chat provider behind an untouched breaker: the call is made, it
    returns, and the breaker is as before. *)
Lemma execute_breaker_chat env name prompt w :
  deployed env -> name ∈ chat_providers -> chat_breakers_untouched w ->
  exists d,
    process env name prompt = Returned d /\
    execute_breaker env name prompt w
      = (Returned d,
         with_provider_calls (with_now w (now w + duration env name))
                             (provider_calls w ++ [name])%list).
Proof.
  intros Hdep Hin Hun.
  destruct (chat_process_returns env name prompt Hdep Hin) as [d Hd].
  exists d. split; [done |].
  unfold execute_breaker. rewrite (Hun name Hin).
  unfold execute, call_through, provider_call. simpl. rewrite Hd. simpl.
  f_equal. unfold with_circuit_breakers, with_provider_calls, with_now. simpl.
  f_equal. apply insert_id. by apply Hun.
Qed.

Lemma chat_breakers_untouched_frame w w1 :
  (forall name, name ∈ chat_providers ->
     circuit_breakers w1 !! name = circuit_breakers w !! name) ->
  chat_breakers_untouched w -> chat_breakers_untouched w1.
Proof. intros H Hun name Hin. rewrite H by done. by apply Hun. Qed.

Lemma execute_breaker_keeps_chat env name prompt w :
  deployed env -> chat_breakers_untouched w ->
  chat_breakers_untouched (execute_breaker env name prompt w).2.
Proof.
  intros Hdep Hun.
  destruct (decide (name ∈ chat_providers)) as [Hin|Hnin].
  - destruct (execute_breaker_chat env name prompt w Hdep Hin Hun) as (d & _ & ->).
    simpl. intros n Hn. by apply Hun.
  - apply (chat_breakers_untouched_frame w); [| done].
    intros n Hn. apply execute_breaker_others. intros ->. done.
Qed.

Lemma call_with_fallback_keeps_chat env name prompt w :
  deployed env -> chat_breakers_untouched w ->
  chat_breakers_untouched (call_with_fallback env name prompt w).2.
Proof.
  intros Hdep Hun. unfold call_with_fallback.
  pose proof (execute_breaker_keeps_chat env name prompt w Hdep Hun) as H1.
  destruct (execute_breaker env name prompt w) as [[d|e] w1]; [done |].
  simpl in H1. case_decide; [| done].
  by apply execute_breaker_keeps_chat.
Qed.



Lemma process_prompt_keeps_chat env u req w :
  deployed env -> chat_breakers_untouched w ->
  chat_breakers_untouched (process_prompt env u req w).2.
Proof.
  intros Hdep Hun. unfold process_prompt, process_prompt_call.
  destruct (negb _); [done |].
  destruct (falsy _); [done |].
  destruct (negb _); [done |].
  pose proof (call_with_fallback_keeps_chat env
                (default "openai" (req_provider req))
                (default "" (req_prompt req)) w Hdep Hun) as H1.
  destruct (call_with_fallback _ _ _ w) as [[d|e] w1]; [| done].
  simpl in H1.
  match goal with
  | |- context [Usage.track_usage ?a ?b ?c ?d ?f ?g ?h] =>
      pose proof (circuit_breakers_track_usage a b c d f g h) as (Hcb & _);
      destruct (Usage.track_usage a b c d f g h) as [o w2]
  end.
  simpl in *. apply (chat_breakers_untouched_frame w1); [| done].
  intros n _. by rewrite Hcb.
Qed.

Lemma dispatch_keeps_chat env u req w :
  deployed env -> chat_breakers_untouched w ->
  chat_breakers_untouched (dispatch env u req w).2.
Proof.
  intros Hdep Hun. unfold dispatch, RateLimiter.rate_limit.
  destruct (RateLimiter.allow _ _ _ _) as [[] store]; [| done].
  by apply process_prompt_keeps_chat.
Qed.

Lemma execute_breaker_calls env name prompt w :
  let w1 := (execute_breaker env name prompt w).2 in
  provider_calls w1 = provider_calls w \/
  provider_calls w1 = (provider_calls w ++ [name])%list.
Proof.
  unfold execute_breaker.
  destruct (circuit_breakers w !! name) as [cb|]; [| by left].
  unfold execute, call_through, provider_call.
  destruct (state cb); repeat case_decide;
    destruct (process env name prompt); simpl; auto.
Qed.

Lemma call_with_fallback_calls env pn prompt w :
  let w1 := (call_with_fallback env pn prompt w).2 in
  (exists l, provider_calls w1 = (provider_calls w ++ l)%list /\
     (l = [] \/ l = [pn] \/
      (pn <> "openai" /\ (l = ["openai"] \/ l = [pn; "openai"])))) /\
  (forall other, other <> pn -> other <> "openai" ->
     circuit_breakers w1 !! other = circuit_breakers w !! other).
Proof.
  unfold call_with_fallback.
  pose proof (execute_breaker_calls env pn prompt w) as Hc1.
  pose proof (fun other => execute_breaker_others env pn prompt w other) as Ho1.
  destruct (execute_breaker env pn prompt w) as [[d|e] w1]; simpl in *.
  - split; [| intros other H1 _; by apply Ho1].
    destruct Hc1 as [-> | ->]; [exists [] | exists [pn]];
      rewrite ?app_nil_r; auto.
  - case_decide as Hne.
    + pose proof (execute_breaker_calls env "openai" prompt w1) as Hc2.
      pose proof (fun other => execute_breaker_others env "openai" prompt w1 other)
        as Ho2.
      destruct (execute_breaker env "openai" prompt w1) as [o w2]; simpl in *.
      split; [| intros other H1 H2; rewrite Ho2 by done; by apply Ho1].
      destruct Hc1 as [Hc1 | Hc1], Hc2 as [Hc2 | Hc2]; rewrite Hc2, Hc1.
      * exists []. rewrite app_nil_r. auto.
      * exists ["openai"]. auto 6.
      * exists [pn]. auto.
      * exists [pn; "openai"]. rewrite <- app_assoc. auto 6.
    + simpl. split; [| intros other H1 _; by apply Ho1].
      destruct Hc1 as [-> | ->]; [exists [] | exists [pn]];
        rewrite ?app_nil_r; auto.
Qed.




(** C4, as the code has it: the rate limiter, being the decorator, runs
    before the usage check.  A request of a user over the monthly limit is
    first put through the rate limiter; turned down there, it gets the
    rate-limit answer; admitted there, it has been counted in the user's
    window before it gets the usage-limit answer.  Either way no breaker
    changes, no provider is called and no usage row is written. *)
Theorem usage_check_follows_rate_limiter env u req w :
  Usage.check_usage_limits env u w = false ->
  let tier := RateLimiter.get_user_tier u in
  let r := RateLimiter.current_window tier u (now w) (rate_limit_store w) in
  let '(resp, w') := dispatch env u req w in
  circuit_breakers w' = circuit_breakers w /\
  provider_calls w' = provider_calls w /\
  usage w' = usage w /\
  (requests r >= RateLimiter.max_requests tier ->
     resp = RateLimiter.limit_exceeded tier /\
     rate_limit_store w' = rate_limit_store w) /\
  (requests r < RateLimiter.max_requests tier ->
     resp = usage_limit_exceeded /\
     rate_limit_store w'
       = <[ u := Window (requests r + 1) (window_start r) ]> (rate_limit_store w) /\
     rate_limit_store w' <> rate_limit_store w).
Proof.
  intros Hu tier r.
  destruct (allow_cases tier (rate_limit_store w) u (now w)) as [Hrej Hadm].
  fold r in Hrej, Hadm.
  pose proof (granted_request_is_counted tier (rate_limit_store w) u (now w))
    as Hcnt.
  unfold dispatch, RateLimiter.rate_limit. fold tier.
  destruct (decide (requests r >= RateLimiter.max_requests tier)) as [Hge|Hlt].
  - rewrite (Hrej Hge). simpl. repeat split; auto; lia.
  - assert (Hlt' : requests r < RateLimiter.max_requests tier) by lia.
    rewrite (Hadm Hlt') in *. unfold process_prompt.
    change (Usage.check_usage_limits env u (with_rate_limit_store w _))
      with (Usage.check_usage_limits env u w).
    rewrite Hu. simpl. repeat split; auto; lia.
Qed.

Lemma process_prompt_track_fault env fault u req w :
  (process_prompt (with_track_fault env fault) u req w).1
    = (process_prompt env u req w).1.
Proof.
  destruct env as [p d m tq uq f]. unfold with_track_fault. simpl.
  unfold process_prompt.
  change (Usage.check_usage_limits (MkEnv p d m tq uq fault) u w)
    with (Usage.check_usage_limits (MkEnv p d m tq uq f) u w).
  destruct (Usage.check_usage_limits _ u w); simpl; [| done].
  unfold process_prompt_call.
  destruct (falsy (req_prompt req)); [done |].
  destruct (negb _); [done |].
  change (call_with_fallback (MkEnv p d m tq uq fault))
    with (call_with_fallback (MkEnv p d m tq uq f)).
  destruct (call_with_fallback _ _ _ w) as [[result|e] w1]; [| done].
  by repeat destruct (Usage.track_usage _ _ _ _ _ _ _).
Qed.

(** C10: [track_usage] returns, whatever statement of it the database
    fails at; and the answer of the route is the same whether, and
    wherever, the write of the usage row fails. *)
Theorem track_usage_never_raises env u provider endpoint rt st w :
  (Usage.track_usage env u provider endpoint rt st w).1 = Returned tt /\
  forall fault req,
    (dispatch (with_track_fault env fault) u req w).1 = (dispatch env u req w).1.
Proof.
  split; [apply track_usage_returns |].
  intros fault req. unfold dispatch, RateLimiter.rate_limit.
  destruct (RateLimiter.allow _ _ _ _) as [[] store]; [| done].
  apply process_prompt_track_fault.
Qed.
End DispatchFacts.

(** *** The route on concrete requests *)

Section DispatchExamples.
Import Breaker App Sample Sample2.


Example anthropic_open_breakers :
  circuit_breakers anthropic_open !! "anthropic" = Some anthropic_breaker /\
  state <$> circuit_breakers anthropic_open !! "openai" = Some closed /\
  now anthropic_open = 1000.
Proof. repeat split; by vm_compute. Qed.






(** C4 fails as stated: user 1 is over the monthly limit and gets the
    usage-limit answer, and the request has been counted in the user's
    rate-limit window, which did not exist before. *)
Lemma over_limit_request_is_counted :
  Usage.check_usage_limits env_openai_ok 1 over_limit = false /\
  let '(resp, w') := dispatch env_openai_ok 1 req_anthropic over_limit in
  resp = usage_limit_exceeded /\
  rate_limit_store over_limit !! 1 = None /\
  rate_limit_store w' !! 1 = Some (Window 1 1000) /\
  rate_limit_store w' <> rate_limit_store over_limit.
Proof. vm_compute. repeat split. discriminate. Qed.

Lemma usage_check_follows_rate_limiter_witness :
  let '(resp, w') := dispatch env_openai_ok 1 req_anthropic over_limit in
  resp = usage_limit_exceeded /\
  circuit_breakers w' = circuit_breakers over_limit /\
  rate_limit_store w' = {[ 1 := Window 1 1000 ]}.
Proof.
  pose proof (usage_check_follows_rate_limiter env_openai_ok 1 req_anthropic
                over_limit ltac:(by vm_compute)) as H.
  simpl in H.
  destruct (dispatch _ _ _ _) as [resp w'].
  destruct H as (Hcb & _ & _ & _ & H).
  destruct H as (Hr & Hs & _); [by vm_compute |].
  repeat split; [exact Hr | exact Hcb |]. rewrite Hs. by vm_compute.
Defined.
End DispatchExamples.

(** * Further properties *)

(** ** The circuit breaker over sequences of calls *)

Section BreakerMore.
Import Breaker Calls.
Context {W : Type}.

(** A breaker created by [__init__] never leaves the state closed: after
    any sequence of calls, with any changes of the world between them and
    however many of the calls raise, it is closed, its [last_failure_time]
    is still 0, its name, threshold and timeout are those it was created
    with, and its counter is not negative. *)
Theorem breaker_never_opens nm thr tmo (steps : list ((W -> W) * @thunk W)) w :
  let b := (run_between (init nm thr tmo) steps w).1 in
  state b = closed /\ last_failure_time b = 0 /\
  name b = nm /\ failure_threshold b = thr /\ reset_timeout b = tmo /\
  0 <= failures b.
Proof.
  destruct (rests_run_between nm thr tmo steps _ w (rests_init nm thr tmo))
    as (Hs & Hn & Ht & Hr & Hl & Hf).
  simpl. repeat split; auto.
Qed.

(** An open breaker never probes: in whatever world, that is at whatever
    time, and whatever the wrapped function, [execute] raises [NameError];
    the function is not called, and the breaker and the world are
    unchanged. *)
Theorem open_breaker_never_probes b (f : @thunk W) w :
  state b = open ->
  execute b f w = (Raised name_error, b, w) /\
  forall g : @thunk W, execute b g w = execute b f w.
Proof.
  intros E. split; [by apply execute_open |].
  intros g. by rewrite !execute_open.
Qed.

(** [execute] calls the wrapped function at most once, and never hands on
    an exception of it.  A breaker that is not open calls the function
    once: a result is handed on, with the effects of the call; when the
    function raises, whatever it raises, [execute] raises [NameError], the
    counter having gone up by one and the state and [last_failure_time]
    being as before.  An open breaker raises [NameError] without a call. *)
Theorem execute_hands_on_results_only b (f : @thunk W) w :
  (execute b f w).2 = (f w).2 /\ state b <> open /\
    match (f w).1 with
    | Returned r =>
        (execute b f w).1.1 = Returned r /\
        (execute b f w).1.2 = after_return b
    | Raised e =>
        (execute b f w).1.1 = Raised name_error /\
        (execute b f w).1.2 = set_failures b (failures b + 1)
    end
  \/
  state b = open /\ execute b f w = (Raised name_error, b, w).
Proof.
  assert (Hcall : state b <> open ->
    (execute b f w).2 = (f w).2 /\ state b <> open /\
    match (f w).1 with
    | Returned r =>
        (execute b f w).1.1 = Returned r /\
        (execute b f w).1.2 = after_return b
    | Raised e =>
        (execute b f w).1.1 = Raised name_error /\
        (execute b f w).1.2 = set_failures b (failures b + 1)
    end).
  { intros E. destruct (f w) as [[r|e] w1] eqn:Hf; simpl.
    - rewrite (execute_returned b f w r w1) by done. done.
    - rewrite (execute_raised b f w e w1) by done. done. }
  destruct (state b) eqn:E.
  - left. apply Hcall. congruence.
  - right. split; [done |]. by apply execute_open.
  - left. apply Hcall. congruence.
Qed.

Lemma raised_calls_nonneg (calls : list (@thunk W)) :
  forall w, 0 <= raised_calls calls w.
Proof.
  induction calls as [|f rest IH]; intros w; simpl; [lia |].
  destruct (f w) as [o w1]. specialize (IH w1). destruct (is_raised o); lia.
Qed.

Lemma closed_run_counts (calls : list (@thunk W)) :
  forall b w,
    state b = closed ->
    let b' := (run b calls w).1 in
    state b' = closed /\ failures b' = failures b + raised_calls calls w /\
    (run b calls w).2 = world_after calls w.
Proof.
  induction calls as [|f rest IH]; intros b w E; simpl in *.
  - repeat split; auto; lia.
  - unfold execute, call_through, after_raise. rewrite E.
    destruct (f w) as [[r|e] w1]; simpl in *.
    + unfold after_return. rewrite E.
      destruct (IH b w1 E) as (H1 & H2 & H3).
      repeat split; auto; lia.
    + match goal with |- context [run ?c rest w1] =>
        destruct (IH c w1) as (H1 & H2 & H3) end; simpl; auto.
      simpl in H2. repeat split; auto; lia.
Qed.

(** The counter counts failures in total, not in a row: as long as fewer
    calls than the threshold have raised, the breaker is closed, every call
    has been made, and the counter is the number of calls that raised,
    however many calls returned in between. *)
Theorem failures_are_counted_in_total nm thr tmo (calls : list (@thunk W)) w :
  raised_calls calls w < thr ->
  let b := (run (init nm thr tmo) calls w).1 in
  state b = closed /\ failures b = raised_calls calls w /\
  (run (init nm thr tmo) calls w).2 = world_after calls w.
Proof.
  intros Hlt.
  destruct (closed_run_counts calls (init nm thr tmo) w eq_refl) as (H1 & H2 & H3).
  simpl in *. repeat split; auto.
Qed.
End BreakerMore.

(** ** handle_error *)

Section HandleErrorFacts.

(** [handle_error] never answers 504: a [Timeout] is a [RequestException],
    so the first branch takes it and answers 502; the codes it gives are
    400, 500 and 502. *)
Theorem handle_error_never_504 e msg :
  status_code (handle_error e) ∈ [400; 500; 502] /\
  handle_error (Exn Timeout msg)
    = Response (error_body "API request failed" msg) 502.
Proof.
  split; [| reflexivity].
  destruct e as [[] s]; vm_compute; set_solver.
Qed.
End HandleErrorFacts.

(** ** The rate limiter: windows and users *)

Section RateLimiterMore.
Import RateLimiter.

(** A request of one user leaves the records of all other users alone. *)
Theorem allow_touches_one_user tier u t (store : gmap Z window) v :
  v <> u -> (allow tier u t store).2 !! v = store !! v.
Proof.
  intros Hne. unfold allow, roll_window, ensure_record.
  destruct (store !! u) eqn:E; repeat case_decide; simpl;
    rewrite ?lookup_insert_ne by done; done.
Qed.

(** A full window turns requests down up to and including the instant
    [time_window] after its start; the first request strictly after that
    starts a new window at its own time, with a count of 1. *)
Theorem full_window_until_it_expires tier u t (store : gmap Z window) n ws :
  store !! u = Some (Window n ws) ->
  n >= max_requests tier ->
  (t - ws <= time_window tier -> allow tier u t store = (Rejected, store)) /\
  (t - ws > time_window tier ->
     allow tier u t store = (Granted, <[ u := Window 1 t ]> store)).
Proof.
  intros Hl Hn.
  pose proof (current_window_cases tier store u t) as Hc.
  rewrite Hl in Hc. simpl in Hc.
  pose proof (max_requests_bounds tier) as Hb.
  destruct (allow_cases tier store u t) as [Hrej Hadm].
  split; intros Ht.
  - rewrite decide_False in Hc by lia. apply Hrej. rewrite Hc. simpl. lia.
  - rewrite decide_True in Hc by lia. rewrite Hadm; rewrite Hc; simpl; [done | lia].
Qed.

Lemma serve_same_instant tier_of u t n :
  forall k, 0 <= k <= max_requests (tier_of u) ->
    serve tier_of (replicate n (u, t)) {[ u := Window k t ]}
    = {[ u := Window (Z.min (k + Z.of_nat n) (max_requests (tier_of u))) t ]}.
Proof.
  pose proof (time_window_positive (tier_of u)) as Hw.
  induction n as [|n IH]; intros k Hk; simpl.
  - f_equal. f_equal. lia.
  - pose proof (current_window_cases (tier_of u) {[ u := Window k t ]} u t) as Hc.
    rewrite lookup_singleton_eq in Hc. simpl in Hc.
    rewrite decide_False in Hc by lia.
    destruct (allow_cases (tier_of u) {[ u := Window k t ]} u t) as [Hrej Hadm].
    rewrite Hc in Hrej, Hadm. simpl in Hrej, Hadm.
    destruct (decide (k >= max_requests (tier_of u))) as [Hge|Hlt].
    + rewrite (Hrej Hge). simpl. rewrite IH by lia. f_equal. f_equal. lia.
    + rewrite Hadm by lia. simpl. rewrite insert_singleton_eq.
      rewrite IH by lia. f_equal. f_equal. lia.
Qed.

(** Of [n] requests a user sends at one instant, starting with no record,
    the first [max_requests] are counted and the others are not: the stored
    count is the smaller of [n] and the limit of the user's tier. *)
Theorem window_counts_up_to_the_limit tier_of u t n :
  (0 < n)%nat ->
  serve tier_of (replicate n (u, t)) ∅
  = {[ u := Window (Z.min (Z.of_nat n) (max_requests (tier_of u))) t ]}.
Proof.
  intros Hn. destruct n as [|n]; [lia |]. simpl.
  pose proof (max_requests_bounds (tier_of u)) as Hb.
  destruct (allow_cases (tier_of u) ∅ u t) as [_ Hadm].
  pose proof (current_window_cases (tier_of u) ∅ u t) as Hc.
  rewrite lookup_empty in Hc. rewrite Hc in Hadm. simpl in Hadm.
  rewrite Hadm by lia. simpl. rewrite insert_empty.
  rewrite serve_same_instant by lia. f_equal. f_equal. lia.
Qed.

Lemma with_rate_limit_store_id w : with_rate_limit_store w (rate_limit_store w) = w.
Proof. by destruct w. Qed.

(** The decorator: a request that finds its window full is answered 429 by
    the decorator itself; the route is not run, whatever it is, and nothing
    in the world changes.  Any other request runs the route, in the world
    where only the count of the user's window has changed. *)
Theorem rate_limit_guards_the_route (f : handler) u req w :
  let tier := get_user_tier u in
  let r := current_window tier u (now w) (rate_limit_store w) in
  (requests r >= max_requests tier ->
     rate_limit f u req w = (limit_exceeded tier, w) /\
     status_code (rate_limit f u req w).1 = 429) /\
  (requests r < max_requests tier ->
     rate_limit f u req w =
       f u req (with_rate_limit_store w
                  (<[ u := Window (requests r + 1) (window_start r) ]>
                     (rate_limit_store w)))).
Proof.
  intros tier r.
  destruct (allow_cases tier (rate_limit_store w) u (now w)) as [Hrej Hadm].
  fold r in Hrej, Hadm. unfold rate_limit. fold tier.
  split; intros H.
  - rewrite (Hrej H). by rewrite with_rate_limit_store_id.
  - by rewrite (Hadm H).
Qed.
End RateLimiterMore.

(** ** The monthly limit and the usage report *)

Section UsageMore.
Import App.

Lemma usage_count_app u start (l1 l2 : list usage_row) :
  Usage.usage_count u start (l1 ++ l2)
  = Usage.usage_count u start l1 + Usage.usage_count u start l2.
Proof.
  unfold Usage.usage_count. rewrite filter_app, length_app. lia.
Qed.

Lemma usage_count_nonneg u start l : 0 <= Usage.usage_count u start l.
Proof. unfold Usage.usage_count. lia. Qed.

Lemma usage_count_row u start r :
  Usage.usage_count u start [r]
  = if decide (u_user_id r = u /\ start <= u_timestamp r) then 1 else 0.
Proof.
  unfold Usage.usage_count. rewrite filter_cons, filter_nil.
  by case_decide.
Qed.

(** The two limit checks answer a failing database in opposite ways:
    [check_usage_limits] refuses every user, of any tier; [is_within_limits]
    of db.py, whose count is then 0, lets every user through. *)
Theorem limit_checks_differ_on_failure env recent u w :
  usage_query_fails env = true ->
  Usage.check_usage_limits env u w = false /\
  Db.is_within_limits env true recent u w = true.
Proof.
  intros Hf. split.
  - unfold Usage.check_usage_limits. by rewrite Hf.
  - unfold Db.is_within_limits, Db.check_usage. by repeat case_decide.
Qed.

(** A user who is over the monthly limit stays over it when more usage is
    recorded, for any user and with or without a database failure: the
    check after [track_usage] passes only if it passed before. *)
Theorem recording_never_restores_the_limit env u v provider endpoint rt st w :
  Usage.check_usage_limits env u
    (Usage.track_usage env v provider endpoint rt st w).2 = true ->
  Usage.check_usage_limits env u w = true.
Proof.
  destruct (track_usage_effect env v provider endpoint rt st w) as (Hw & Hor & _).
  simpl in Hw, Hor. rewrite Hw.
  unfold Usage.check_usage_limits, Usage.get_user_tier. simpl.
  destruct (usage_query_fails env); [done |].
  destruct Hor as [-> | ->]; [done |].
  rewrite usage_count_app.
  match goal with |- context [Usage.usage_count u ?s [?r]] =>
    pose proof (usage_count_nonneg u s [r]) as Hnn end.
  repeat case_decide; try done;
    rewrite !bool_decide_eq_true; lia.
Qed.

(** Every request that is answered with a result uses up one call of the
    month, whatever the status of the result: when the row is written in the
    month of the request, the count seen by [check_usage_limits] goes up by
    exactly one. *)
Theorem answered_request_uses_quota env u req w pn prompt result w1 :
  reaches_call env u req w pn prompt ->
  call_with_fallback env pn prompt w = (Returned result, w1) ->
  track_fault env = None ->
  month_start env (now w) <= now w1 ->
  let w' := (process_prompt env u req w).2 in
  Usage.usage_count u (month_start env (now w)) (usage w')
  = Usage.usage_count u (month_start env (now w)) (usage w) + 1.
Proof.
  intros Hr Hc Hnf Ht.
  pose proof (call_with_fallback_frame env pn prompt w) as Hfr.
  rewrite Hc in Hfr. simpl in Hfr. destruct Hfr as (Hus & _).
  rewrite (process_prompt_reaches env u req w pn prompt Hr), Hc. simpl.
  match goal with
  | |- context [Usage.track_usage ?a ?b ?c ?d ?f ?g ?h] =>
      destruct (track_usage_effect a b c d f g h) as (_ & _ & Hrow)
  end.
  simpl in Hrow. rewrite (Hrow Hnf), Hus, usage_count_app, usage_count_row.
  simpl. by rewrite decide_True.
Qed.
End UsageMore.

Section ReportFacts.
Import Report.

Lemma stat_add_group m p e c p' e' :
  stat (add_group m (p, e, c)) p' e'
  = if decide ((p', e') = (p, e)) then Some c else stat m p' e'.
Proof.
  unfold stat, add_group.
  destruct (decide (p' = p)) as [->|Hp].
  - rewrite lookup_insert_eq. simpl.
    destruct (decide (e' = e)) as [->|He].
    + rewrite lookup_insert_eq. by rewrite decide_True.
    + rewrite lookup_insert_ne by done.
      rewrite decide_False by congruence.
      destruct (m !! p) eqn:E; simpl; [by rewrite E |].
      by rewrite lookup_insert_eq.
  - rewrite lookup_insert_ne by done.
    rewrite decide_False by congruence.
    destruct (m !! p) eqn:E; [done |]. by rewrite lookup_insert_ne.
Qed.

#[local] Arguments add_group : simpl never.

Lemma stat_fold_absent (l : list (string * string * Z)) p e :
  forall m, (forall c, (p, e, c) ∉ l) ->
            stat (fold_left add_group l m) p e = stat m p e.
Proof.
  induction l as [|[[p0 e0] c0] l IH]; intros m Hno; simpl; [done |].
  rewrite IH.
  - rewrite stat_add_group. case_decide as Heq; [| done].
    inversion Heq; subst. exfalso. apply (Hno c0). apply list_elem_of_here.
  - intros c Hin. apply (Hno c). by apply list_elem_of_further.
Qed.

Lemma stat_fold_present (l : list (string * string * Z)) p e c :
  forall m, NoDup (map (fun g => (g.1.1, g.1.2)) l) ->
            (p, e, c) ∈ l ->
            stat (fold_left add_group l m) p e = Some c.
Proof.
  induction l as [|[[p0 e0] c0] l IH]; intros m Hnd Hin; simpl in *.
  - by apply elem_of_nil in Hin.
  - apply NoDup_cons in Hnd as [Hnotin Hnd].
    apply elem_of_cons in Hin as [Heq|Hin].
    + inversion Heq; subst. rewrite stat_fold_absent.
      * rewrite stat_add_group. by rewrite decide_True.
      * intros c' Hin'. apply Hnotin.
        apply list_elem_of_fmap. by exists (p0, e0, c').
    + by apply IH.
Qed.

Lemma count_of_positive k (rows : list usage_row) :
  0 < count_of k rows <-> k ∈ map key rows.
Proof.
  unfold count_of. split.
  - intros Hpos.
    destruct (filter (fun r => key r = k) rows) as [|r l] eqn:E;
      [simpl in Hpos; lia |].
    assert (Hin : r ∈ filter (fun r => key r = k) rows)
      by (rewrite E; apply list_elem_of_here).
    apply list_elem_of_filter in Hin as [Hk Hin].
    apply list_elem_of_fmap. by exists r.
  - intros Hin. apply list_elem_of_fmap in Hin as (r & Hk & Hin).
    assert (Hf : r ∈ filter (fun r => key r = k) rows)
      by (apply list_elem_of_filter; split; done).
    destruct (filter (fun r => key r = k) rows); [by apply elem_of_nil in Hf |].
    simpl. lia.
Qed.

(** The usage report: for every provider and endpoint,
    [usage_stats[provider][endpoint]] is the number of rows of the user in
    the range of dates with that provider and endpoint, and the keys are
    absent when there is no such row; when the database fails the report is
    the empty dictionary. *)
Theorem usage_report_counts_rows u start_date end_date w provider endpoint :
  let rows := filter (selected u start_date end_date) (usage w) in
  let n := count_of (provider, endpoint) rows in
  stat (get_user_usage false u start_date end_date w) provider endpoint
    = (if decide (0 < n) then Some n else None) /\
  get_user_usage true u start_date end_date w = ∅.
Proof.
  intros rows n. split; [| done].
  unfold get_user_usage. fold rows. unfold group_by.
  case_decide as Hn.
  - apply stat_fold_present.
    + rewrite <- list_fmap_compose.
      replace (map _ (remove_dups (map key rows)))
        with (remove_dups (map key rows)).
      * apply NoDup_remove_dups.
      * symmetry. erewrite list_fmap_ext; [apply list_fmap_id |].
        intros i [a b] _. done.
    + apply list_elem_of_fmap. exists (provider, endpoint). split; [done |].
      apply elem_of_remove_dups. by apply count_of_positive.
  - rewrite stat_fold_absent; [done |].
    intros c Hin. apply list_elem_of_fmap in Hin as ([p e] & Heq & Hin).
    inversion Heq; subst. rewrite elem_of_remove_dups in Hin.
    apply count_of_positive in Hin. fold rows in Hin. fold n in Hin. lia.
Qed.
End ReportFacts.

(** ** The decorators of auth.py *)

Section AuthFacts.
Import Auth.

Lemma split_space_no_space s : no_space s = true -> split_space s = [s].
Proof.
  induction s as [|c s IH]; simpl; [done |].
  case_decide; [done |]. intros Hs. by rewrite (IH Hs).
Qed.

Lemma split_space_piece s rest :
  no_space s = true ->
  split_space (s +:+ " " +:+ rest) = s :: split_space rest.
Proof.
  induction s as [|c s IH]; simpl; [done |].
  case_decide; [done |]. intros Hs. by rewrite (IH Hs).
Qed.

Lemma split_space_bearer rest :
  split_space ("Bearer " +:+ rest) = "Bearer" :: split_space rest.
Proof. apply (split_space_piece "Bearer" rest). reflexivity. Qed.

Lemma prefix_bearer rest : String.prefix "Bearer " ("Bearer " +:+ rest) = true.
Proof. simpl. by destruct rest. Qed.

(** The token of a request.  A header [Authorization: Bearer t], with [t]
    not empty and without a space, gives [t], whatever the cookie, and so
    does a header with more text after a space behind [t]; with an empty
    token in the header, or without the header, the token is the one of the
    cookie [token], if there is one. *)
Theorem token_comes_from_header_then_cookie r tok junk :
  no_space tok = true ->
  tok <> "" ->
  (headers r !! "Authorization" = Some ("Bearer " +:+ tok) ->
     token_of r = Some tok) /\
  (headers r !! "Authorization" = Some ("Bearer " +:+ tok +:+ " " +:+ junk) ->
     token_of r = Some tok) /\
  (headers r !! "Authorization" = Some "Bearer " ->
     token_of r = cookies r !! "token") /\
  (headers r !! "Authorization" = None ->
     token_of r = cookies r !! "token").
Proof.
  intros Hns Hne. unfold token_of.
  repeat split; intros Hh; rewrite Hh.
  - rewrite prefix_bearer, split_space_bearer, split_space_no_space by done.
    simpl. by destruct tok.
  - rewrite prefix_bearer, split_space_bearer, split_space_piece by done.
    simpl. by destruct tok.
  - reflexivity.
  - reflexivity.
Qed.

Lemma get_current_user_known user_id cu :
  get_current_user user_id = Some cu ->
  id cu = user_id /\ user_id ∈ [1; 2; 3].
Proof.
  unfold get_current_user.
  repeat case_decide; intros Hg; inversion Hg; subst; simpl; split; try done;
    set_solver.
Qed.

(** [token_required] runs the route for a known user only: either the token
    of the request decodes to the id of user 1, 2 or 3 and the route is run
    with that user's dictionary, or the route is not run, nothing changes,
    and the answer has code 401 or 500. *)
Theorem route_runs_for_known_users_only jwt_decode (f : uhandler) r w :
  (exists token user_id current_user,
     token_of r = Some token /\ token <> "" /\
     jwt_decode token = Payload (Some user_id) /\
     get_current_user user_id = Some current_user /\
     id current_user = user_id /\ user_id ∈ [1; 2; 3] /\
     token_required jwt_decode f r w = f current_user (json r) w) \/
  (exists resp,
     token_required jwt_decode f r w = (resp, w) /\
     status_code resp ∈ [401; 500]).
Proof.
  unfold token_required.
  destruct (token_of r) as [[|c s]|] eqn:Et;
    try (right; eexists; split; [reflexivity | simpl; set_solver]).
  destruct (jwt_decode (String c s)) as [[user_id|]| | |] eqn:Ej;
    try (right; eexists; split; [reflexivity | simpl; set_solver]).
  destruct (get_current_user user_id) as [cu|] eqn:Eu;
    try (right; eexists; split; [reflexivity | simpl; set_solver]).
  left. exists (String c s), user_id, cu.
  destruct (get_current_user_known user_id cu Eu) as [Hid Hin].
  repeat split; auto.
Qed.

Lemma tier_level_bounds t : 0 <= tier_level t <= 2.
Proof.
  unfold tier_level.
  destruct (tier_levels !! t) as [n|] eqn:E; simpl; [| lia].
  unfold tier_levels in E.
  repeat (rewrite lookup_insert in E; case_decide; [inversion E; lia |]).
  by rewrite lookup_empty in E.
Qed.

(** The tier gate.  The enterprise tier passes every requirement; a
    requirement that is not one of 'free', 'pro' and 'enterprise' has level
    0 and lets every user through; a user whose tier is absent, is 'free',
    or is not one of the three names (such as 'admin') is refused by a 'pro'
    or 'enterprise' route: the answer has code 403 and gives 'free' as the
    current tier when the tier is absent, the route is not run and nothing
    changes. *)
Theorem tier_gate_orders_tiers required (f : uhandler) u req w :
  (tier u = Some "enterprise" -> tier_required required f u req w = f u req w) /\
  (tier_levels !! required = None -> tier_required required f u req w = f u req w) /\
  (tier u = None \/ tier u = Some "free" \/
   (exists t, tier u = Some t /\ tier_levels !! t = None) ->
   required ∈ ["pro"; "enterprise"] ->
     tier_required required f u req w
       = (tier_refused (default "free" (tier u)) required, w) /\
     status_code (tier_required required f u req w).1 = 403).
Proof.
  unfold tier_required.
  pose proof (tier_level_bounds required) as Hreq.
  pose proof (tier_level_bounds (default "free" (tier u))) as Hu.
  split; [| split].
  - intros E. rewrite E in *. simpl.
    change (tier_level "enterprise") with 2. by rewrite decide_False by lia.
  - intros E.
    assert (H0 : tier_level required = 0) by (unfold tier_level; by rewrite E).
    by rewrite decide_False by lia.
  - intros Hlow Hin.
    assert (H0 : tier_level (default "free" (tier u)) = 0).
    { destruct Hlow as [E | [E | (t & E & Ht)]]; rewrite E; simpl;
        [reflexivity | reflexivity |].
      unfold tier_level. by rewrite Ht. }
    assert (H1 : 0 < tier_level required).
    { rewrite !elem_of_cons in Hin.
      destruct Hin as [-> | [-> | Hin]]; [by vm_compute | by vm_compute |].
      by apply elem_of_nil in Hin. }
    by rewrite decide_True by lia.
Qed.

(** The rate limit of the users the token decorator lets in: none of them
    has the limit of the enterprise tier, and the user whose dictionary says
    'enterprise' (user 2, the admin) has the smallest limit, 10, since the
    rate limiter has its own table of tiers. *)
Theorem authenticated_users_rate_limits user_id current_user :
  get_current_user user_id = Some current_user ->
  RateLimiter.max_requests (RateLimiter.get_user_tier user_id) ∈ [50; 10; 500] /\
  (tier current_user = Some "enterprise" ->
   RateLimiter.max_requests (RateLimiter.get_user_tier user_id) = 10).
Proof.
  unfold get_current_user.
  repeat case_decide; intros Hg; inversion Hg; subst; simpl;
    (split; [vm_compute; set_solver | try done]).
Qed.

(** [admin_required] runs the route for a user whose role is 'admin' and
    for no other; of the users known to [get_current_user] that is user 2
    alone.  A refused request is answered 403 and changes nothing. *)
Theorem admin_gate_admits_user_2_only (f : uhandler) user_id current_user req w :
  get_current_user user_id = Some current_user ->
  (user_id = 2 -> admin_required f current_user req w = f current_user req w) /\
  (user_id <> 2 ->
     admin_required f current_user req w
       = (Response (message "Admin privileges required") 403, w)).
Proof.
  unfold get_current_user, admin_required.
  repeat case_decide; intros Hg; inversion Hg; subst; simpl; split; intros; try done;
    try lia.
Qed.
End AuthFacts.

(** ** The provider classes behind /api/process *)

Section ProviderFacts.
Import Breaker App Providers Routes.

(** The [process] methods of the three chat providers do not raise: they
    return a dictionary that names the provider and has the status
    'success', with the text and the response time, exactly when the request
    was answered, and the status 'error' and no text otherwise; OpenAI and
    Anthropic report a timeout with the timeout, 10, as response time.  The
    classes of 'hunter' and 'github' have no [process], and the call
    raises. *)
Theorem chat_providers_return_a_status net name prompt :
  (name ∈ chat_providers ->
   exists d,
     process_of net name prompt = Returned d /\
     d !! "provider" = Some (VStr name) /\
     match net name prompt with
     | Answered text response_time =>
         d !! "status" = Some (VStr "success") /\
         d !! "text" = Some (VStr text) /\
         d !! "response_time" = Some (VNum response_time)
     | Failed e _ =>
         d !! "status" = Some (VStr "error") /\ d !! "text" = None /\
         (name <> "google" -> isinstance e Timeout = true ->
          d !! "response_time" = Some (VNum 10))
     end) /\
  (name ∈ ["hunter"; "github"] -> is_raised (process_of net name prompt) = true).
Proof.
  split.
  - unfold chat_providers. rewrite !elem_of_cons.
    intros [-> | [-> | [-> | Hin]]]; [| | | by apply elem_of_nil in Hin];
      unfold process_of; simpl;
      unfold OpenAIProvider_process, AnthropicProvider_process,
        GoogleAIProvider_process, chat_process;
      destruct (net _ prompt) as [text rt | e el];
      try (eexists; split; [reflexivity |]; repeat split; done);
      destruct (isinstance e Timeout) eqn:Et;
      try destruct (isinstance e RequestException);
      eexists; (split; [reflexivity |]); repeat split; done.
  - rewrite !elem_of_cons.
    intros [-> | [-> | Hin]]; [done | done | by apply elem_of_nil in Hin].
Qed.

(** With the provider classes of the repository, the breakers of 'openai',
    'anthropic' and 'google' never leave the state they were created in,
    whatever requests are served and whatever the vendors answer: their
    [process] methods return a dictionary for every failure, so the breaker
    sees no exception. *)
Theorem chat_breakers_never_count reqs :
  forall w,
    Forall (fun item => deployed item.1.1) reqs ->
    chat_breakers_untouched w ->
    chat_breakers_untouched (serve_process reqs w).
Proof.
  induction reqs as [|[[env u] req] rest IH]; intros w Hall Hun; simpl; [done |].
  apply Forall_cons in Hall as [Hdep Hall].
  apply IH; [done |]. by apply dispatch_keeps_chat.
Qed.

(** A failure of a chat provider is answered like a success: the route
    returns the provider's own dictionary with code 200, the provider is
    called once and there is no fallback, and no breaker changes. *)
Theorem chat_failures_are_answered_200 env u req w pn prompt :
  deployed env ->
  reaches_call env u req w pn prompt ->
  pn ∈ chat_providers ->
  chat_breakers_untouched w ->
  exists d,
    process env pn prompt = Returned d /\
    (process_prompt env u req w).1 = Response d 200 /\
    provider_calls (process_prompt env u req w).2
      = (provider_calls w ++ [pn])%list /\
    circuit_breakers (process_prompt env u req w).2 = circuit_breakers w.
Proof.
  intros Hdep Hr Hin Hun.
  destruct (execute_breaker_chat env pn prompt w Hdep Hin Hun) as (d & Hd & Hex).
  exists d. split; [done |].
  rewrite (process_prompt_reaches env u req w pn prompt Hr).
  unfold call_with_fallback. rewrite Hex.
  match goal with
  | |- context [Usage.track_usage ?a ?b ?c ?d ?f ?g ?h] =>
      destruct (circuit_breakers_track_usage a b c d f g h) as (Hcb & Hpc & _)
  end.
  simpl. rewrite Hcb, Hpc. done.
Qed.

(** A request for 'hunter' or 'github' whose breaker is not open is always
    answered by OpenAI: the call through the breaker raises, the breaker
    counts one more failure, and the answer is OpenAI's dictionary, with
    code 200. *)
Theorem hunter_and_github_fall_back env u req w pn prompt cb :
  deployed env ->
  reaches_call env u req w pn prompt ->
  pn ∈ ["hunter"; "github"] ->
  circuit_breakers w !! pn = Some cb ->
  state cb <> open ->
  chat_breakers_untouched w ->
  exists d,
    process env "openai" prompt = Returned d /\
    (process_prompt env u req w).1 = Response d 200 /\
    provider_calls (process_prompt env u req w).2
      = (provider_calls w ++ [pn; "openai"])%list /\
    failures <$> circuit_breakers (process_prompt env u req w).2 !! pn
      = Some (failures cb + 1).
Proof.
  intros Hdep Hr Hin Hl Hs Hun.
  assert (Hne : pn <> "openai").
  { rewrite !elem_of_cons in Hin.
    destruct Hin as [-> | [-> | Hin]]; [done | done | by apply elem_of_nil in Hin]. }
  assert (Hnchat : pn ∉ chat_providers).
  { unfold chat_providers. rewrite !elem_of_cons in Hin.
    destruct Hin as [-> | [-> | Hin]]; [| | by apply elem_of_nil in Hin];
      rewrite !elem_of_cons; intros [? | [? | [? | Hx]]]; try done;
      by apply elem_of_nil in Hx. }
  assert (Hraise : exists e, process env pn prompt = Raised e).
  { destruct Hdep as [net ->]. unfold process_of.
    rewrite !elem_of_cons in Hin.
    destruct Hin as [-> | [-> | Hin]]; [| | by apply elem_of_nil in Hin];
      simpl; eauto. }
  destruct Hraise as [e He].
  pose proof (execute_breaker_keeps_chat env pn prompt w Hdep Hun) as Hun1.
  assert (Hex1 : exists w1 cb1,
    execute_breaker env pn prompt w = (Raised name_error, w1) /\
    provider_calls w1 = (provider_calls w ++ [pn])%list /\
    circuit_breakers w1 !! pn = Some cb1 /\ failures cb1 = failures cb + 1).
  { unfold execute_breaker. rewrite Hl.
    unfold execute, call_through, provider_call, after_raise.
    destruct (state cb) eqn:Es; try congruence; rewrite He; simpl;
      eexists; eexists; (split; [reflexivity |]); simpl;
      rewrite lookup_insert_eq; (split; [done |]);
      (split; [reflexivity |]); done. }
  destruct Hex1 as (w1 & cb1 & Hex1 & Hpc1 & Hcb1 & Hf1).
  rewrite Hex1 in Hun1. simpl in Hun1.
  assert (Hopen : "openai" ∈ chat_providers) by (apply list_elem_of_here).
  destruct (execute_breaker_chat env "openai" prompt w1 Hdep Hopen Hun1)
    as (d & Hd & Hex2).
  exists d. split; [done |].
  rewrite (process_prompt_reaches env u req w pn prompt Hr).
  unfold call_with_fallback. rewrite Hex1. rewrite decide_True by done.
  rewrite Hex2.
  match goal with
  | |- context [Usage.track_usage ?a ?b ?c ?d ?f ?g ?h] =>
      destruct (circuit_breakers_track_usage a b c d f g h) as (Hcb & Hpc & _)
  end.
  simpl. rewrite Hcb, Hpc. simpl. rewrite Hpc1, Hcb1, <- app_assoc. simpl.
  by rewrite Hf1.
Qed.

(** One request to /api/process calls at most two providers, each at most
    once: the provider it names and, after it, OpenAI as the fallback, which
    is never tried a second time.  The breakers of all other providers are
    left as they were. *)
Theorem dispatch_calls_two_providers_at_most env u req w :
  let pn := default "openai" (req_provider req) in
  let w' := (dispatch env u req w).2 in
  (exists l, provider_calls w' = (provider_calls w ++ l)%list /\
     (l = [] \/ l = [pn] \/
      (pn <> "openai" /\ (l = ["openai"] \/ l = [pn; "openai"])))) /\
  (forall other, other <> pn -> other <> "openai" ->
     circuit_breakers w' !! other = circuit_breakers w !! other).
Proof.
  intros pn.
  assert (Hnone : forall w0 : World,
    (exists l, provider_calls w0 = (provider_calls w0 ++ l)%list /\
       (l = [] \/ l = [pn] \/
        (pn <> "openai" /\ (l = ["openai"] \/ l = [pn; "openai"])))) /\
    (forall other, other <> pn -> other <> "openai" ->
       circuit_breakers w0 !! other = circuit_breakers w0 !! other)).
  { intros w0. split; [| done]. exists []. rewrite app_nil_r. auto. }
  unfold dispatch, RateLimiter.rate_limit.
  destruct (RateLimiter.allow _ _ _ _) as [[] store]; simpl;
    [| apply (Hnone (with_rate_limit_store w store))].
  unfold process_prompt, process_prompt_call. fold pn.
  destruct (negb _); [apply (Hnone (with_rate_limit_store w store)) |].
  destruct (falsy _); [apply (Hnone (with_rate_limit_store w store)) |].
  destruct (negb _); [apply (Hnone (with_rate_limit_store w store)) |].
  pose proof (call_with_fallback_calls env pn (default "" (req_prompt req))
                (with_rate_limit_store w store)) as Hc.
  destruct (call_with_fallback _ _ _ _) as [[d|e] w1]; simpl in *; [| exact Hc].
  match goal with
  | |- context [Usage.track_usage ?a ?b ?c ?d ?f ?g ?h] =>
      pose proof (circuit_breakers_track_usage a b c d f g h) as (Hcb & Hpc & _);
      destruct (Usage.track_usage a b c d f g h) as [o w2]
  end.
  simpl in *. rewrite Hcb, Hpc. exact Hc.
Qed.
End ProviderFacts.

(** ** The routes that call a provider directly *)

Section RouteFacts.
Import App Routes.

(** [web_design] and [sales] go round the circuit breakers: whatever state
    the breaker of their provider is in, a request with a prompt calls the
    provider, once; no breaker and no rate-limit record changes, also when
    the provider raises.  Without a prompt the answer is 400 and nothing
    changes. *)
Theorem direct_routes_go_round_the_breakers env u req w :
  let served (route : handler) (provider : string) :=
    circuit_breakers (route u req w).2 = circuit_breakers w /\
    rate_limit_store (route u req w).2 = rate_limit_store w /\
    (falsy (req_prompt req) = false ->
     provider_calls (route u req w).2 = (provider_calls w ++ [provider])%list) /\
    (falsy (req_prompt req) = true -> route u req w = (no_prompt, w)) in
  served (web_design env) "openai" /\ served (sales env) "anthropic".
Proof.
  assert (H : forall provider endpoint rw,
    let route := direct_route env provider endpoint rw in
    circuit_breakers (route u req w).2 = circuit_breakers w /\
    rate_limit_store (route u req w).2 = rate_limit_store w /\
    (falsy (req_prompt req) = false ->
     provider_calls (route u req w).2 = (provider_calls w ++ [provider])%list) /\
    (falsy (req_prompt req) = true -> route u req w = (no_prompt, w))).
  { intros provider endpoint rw. simpl. unfold direct_route.
    destruct (falsy (req_prompt req)); [repeat split; done |].
    unfold provider_call.
    destruct (process env provider _) as [d|e]; simpl; [| repeat split; done].
    match goal with
    | |- context [Usage.track_usage ?a ?b ?c ?d ?f ?g ?h] =>
        destruct (circuit_breakers_track_usage a b c d f g h) as (Hcb & Hpc & Hrl);
        destruct (Usage.track_usage a b c d f g h) as [o w2]
    end.
    simpl in *. rewrite Hcb, Hpc, Hrl. repeat split; done. }
  split; apply H.
Qed.

(** On the routes for the pro tier the tier is checked before the rate
    limiter runs: user 1, on the free tier, is refused with code 403 and the
    request is not counted in any window; users 2 and 3 go on to the rate
    limiter and the route. *)
Theorem pro_routes_check_tier_before_counting jwt_decode env r w token user_id
    current_user :
  Auth.token_of r = Some token ->
  token <> "" ->
  jwt_decode token = Auth.Payload (Some user_id) ->
  Auth.get_current_user user_id = Some current_user ->
  (user_id = 1 ->
     web_design_route jwt_decode env r w = (Auth.tier_refused "free" "pro", w) /\
     sales_route jwt_decode env r w = (Auth.tier_refused "free" "pro", w)) /\
  (user_id <> 1 ->
     web_design_route jwt_decode env r w
       = RateLimiter.rate_limit (web_design env) user_id (Auth.json r) w /\
     sales_route jwt_decode env r w
       = RateLimiter.rate_limit (sales env) user_id (Auth.json r) w).
Proof.
  intros Ht Hne Hj Hu.
  unfold web_design_route, sales_route, Auth.token_required.
  rewrite Ht. destruct token as [|c s]; [done |]. rewrite Hj, Hu.
  unfold Auth.get_current_user in Hu.
  repeat case_decide; inversion Hu; subst; split; intros Hid; try done; try lia.
Qed.
End RouteFacts.

(** ** The further properties on concrete inputs *)

Section FurtherExamples.
Import Breaker App Sample Sample2.

Ltac reaches_call_here :=
  split; [by vm_compute |];
  split; [reflexivity |];
  split; [discriminate |];
  split; [reflexivity |];
  apply (bool_decide_unpack _); by vm_compute.

Ltac chat_breakers_here :=
  intros name; unfold Providers.chat_providers; rewrite !elem_of_cons;
  intros [-> | [-> | [-> | Hin]]];
    [by vm_compute | by vm_compute | by vm_compute | by apply elem_of_nil in Hin].

Lemma open_breaker_never_probes_witness :
  execute opened_at_100 ok_call 161 = (Raised name_error, opened_at_100, 161).
Proof.
  destruct (open_breaker_never_probes opened_at_100 ok_call 161 eq_refl)
    as [H _].
  exact H.
Defined.

Lemma failures_are_counted_in_total_witness :
  state two_failures = closed /\ failures two_failures = 2.
Proof.
  destruct (failures_are_counted_in_total "anthropic" 5 60
              [failing_call; failing_call] 0) as (H1 & H2 & _);
    [by vm_compute |].
  split; [exact H1 | exact H2].
Defined.

Lemma allow_touches_one_user_witness :
  (RateLimiter.allow "free" 1 10 free_full).2 !! 3 = free_full !! 3.
Proof. apply allow_touches_one_user. lia. Defined.

Lemma full_window_until_it_expires_witness :
  RateLimiter.allow "free" 1 3600 free_full = (RateLimiter.Rejected, free_full) /\
  RateLimiter.allow "free" 1 3601 free_full
    = (RateLimiter.Granted, <[ 1 := Window 1 3601 ]> free_full).
Proof.
  split.
  - destruct (full_window_until_it_expires "free" 1 3600 free_full 50 0)
      as [H _]; [by vm_compute | by vm_compute |].
    apply H. by vm_compute.
  - destruct (full_window_until_it_expires "free" 1 3601 free_full 50 0)
      as [_ H]; [by vm_compute | by vm_compute |].
    apply H. by vm_compute.
Defined.

Lemma window_counts_up_to_the_limit_witness :
  RateLimiter.serve RateLimiter.get_user_tier (replicate 60 (1, 0)) ∅
    = {[ 1 := Window 50 0 ]}.
Proof.
  exact (window_counts_up_to_the_limit RateLimiter.get_user_tier 1 0 60
           ltac:(lia)).
Defined.

Lemma rate_limit_guards_the_route_witness :
  let w := with_rate_limit_store world0 free_full in
  RateLimiter.rate_limit (process_prompt env_openai_ok) 1 req_anthropic w
    = (RateLimiter.limit_exceeded "free", w).
Proof.
  intros w.
  destruct (rate_limit_guards_the_route (process_prompt env_openai_ok) 1
              req_anthropic w) as [H _].
  apply H. by vm_compute.
Defined.

Lemma limit_checks_differ_on_failure_witness :
  Usage.check_usage_limits env_db_down 3 world0 = false /\
  Db.is_within_limits env_db_down true (fun _ => true) 3 world0 = true.
Proof. apply limit_checks_differ_on_failure. reflexivity. Defined.

Lemma recording_never_restores_the_limit_witness :
  Usage.check_usage_limits env_openai_ok 1 world0 = true.
Proof.
  apply (recording_never_restores_the_limit env_openai_ok 1 1 "openai"
           "process" (VNum 1) (VStr "success") world0).
  by vm_compute.
Defined.

Lemma answered_request_uses_quota_witness :
  Usage.usage_count 3 0
    (usage (process_prompt env_openai_ok 3 req_anthropic world0).2)
  = Usage.usage_count 3 0 (usage world0) + 1.
Proof.
  apply (answered_request_uses_quota env_openai_ok 3 req_anthropic world0
           "anthropic" "hi" ok_result
           (call_with_fallback env_openai_ok "anthropic" "hi" world0).2).
  - reaches_call_here.
  - by vm_compute.
  - reflexivity.
  - by vm_compute.
Defined.

Lemma token_comes_from_header_then_cookie_witness :
  Auth.token_of http_abc = Some "abc" /\ Auth.token_of http_cookie = Some "abc".
Proof.
  split.
  - destruct (token_comes_from_header_then_cookie http_abc "abc" "" eq_refl)
      as (H & _); [done |].
    apply H. reflexivity.
  - destruct (token_comes_from_header_then_cookie http_cookie "abc" "" eq_refl)
      as (_ & _ & _ & H); [done |].
    rewrite H; reflexivity.
Defined.

Lemma tier_gate_orders_tiers_witness :
  let u := Auth.User 9 "nine" "nine@example.com" "user" (Some "admin") in
  let v := Auth.User 8 "eight" "eight@example.com" "user" None in
  Auth.tier_required "pro" ok_route u req_anthropic world0
    = (Auth.tier_refused "admin" "pro", world0) /\
  Auth.tier_required "pro" ok_route v req_anthropic world0
    = (Auth.tier_refused "free" "pro", world0) /\
  Auth.tier_required "premium" ok_route u req_anthropic world0
    = ok_route u req_anthropic world0.
Proof.
  intros u v. split; [| split].
  - destruct (tier_gate_orders_tiers "pro" ok_route u req_anthropic world0)
      as (_ & _ & H).
    apply H.
    + right. right. exists "admin". split; reflexivity.
    + apply (bool_decide_unpack _). by vm_compute.
  - destruct (tier_gate_orders_tiers "pro" ok_route v req_anthropic world0)
      as (_ & _ & H).
    apply H.
    + left. reflexivity.
    + apply (bool_decide_unpack _). by vm_compute.
  - destruct (tier_gate_orders_tiers "premium" ok_route u req_anthropic world0)
      as (_ & H & _).
    apply H. reflexivity.
Defined.

Lemma authenticated_users_rate_limits_witness :
  RateLimiter.max_requests (RateLimiter.get_user_tier 2) = 10.
Proof.
  destruct (authenticated_users_rate_limits 2 _ eq_refl) as [_ H].
  apply H. reflexivity.
Defined.

Lemma admin_gate_admits_user_2_only_witness :
  Auth.admin_required ok_route
    (Auth.User 3 "prouser" "pro@example.com" "user" (Some "pro"))
    req_anthropic world0
  = (Response (Auth.message "Admin privileges required") 403, world0).
Proof.
  destruct (admin_gate_admits_user_2_only ok_route 3 _ req_anthropic world0
              eq_refl) as [_ H].
  apply H. lia.
Defined.

Lemma chat_providers_return_a_status_witness :
  is_raised (Providers.process_of net_anthropic_slow "hunter" "hi") = true /\
  exists d, Providers.process_of net_anthropic_slow "anthropic" "hi" = Returned d.
Proof.
  split.
  - destruct (chat_providers_return_a_status net_anthropic_slow "hunter" "hi")
      as [_ H].
    apply H. apply (bool_decide_unpack _). by vm_compute.
  - destruct (chat_providers_return_a_status net_anthropic_slow "anthropic" "hi")
      as [H _].
    destruct H as (d & Hd & _); [apply (bool_decide_unpack _); by vm_compute |].
    by exists d.
Defined.

Lemma chat_breakers_never_count_witness :
  Routes.chat_breakers_untouched
    (Routes.serve_process
       [(env_deployed, 3, req_anthropic); (env_deployed, 3, req_hunter)] world0).
Proof.
  apply chat_breakers_never_count.
  - repeat constructor; by exists net_anthropic_slow.
  - chat_breakers_here.
Defined.

Lemma chat_failures_are_answered_200_witness :
  exists d,
    process env_deployed "anthropic" "hi" = Returned d /\
    (process_prompt env_deployed 3 req_anthropic world0).1 = Response d 200.
Proof.
  destruct (chat_failures_are_answered_200 env_deployed 3 req_anthropic world0
              "anthropic" "hi") as (d & Hd & Hresp & _).
  - by exists net_anthropic_slow.
  - reaches_call_here.
  - apply (bool_decide_unpack _). by vm_compute.
  - chat_breakers_here.
  - by exists d.
Defined.

Lemma hunter_and_github_fall_back_witness :
  exists d,
    (process_prompt env_deployed 3 req_hunter world0).1 = Response d 200 /\
    failures <$> circuit_breakers (process_prompt env_deployed 3 req_hunter world0).2
                   !! "hunter" = Some 1.
Proof.
  destruct (hunter_and_github_fall_back env_deployed 3 req_hunter world0
              "hunter" "hi" (init_default "hunter"))
    as (d & _ & Hresp & _ & Hf).
  - by exists net_anthropic_slow.
  - reaches_call_here.
  - apply (bool_decide_unpack _). by vm_compute.
  - by vm_compute.
  - discriminate.
  - chat_breakers_here.
  - by exists d.
Defined.

Lemma direct_routes_go_round_the_breakers_witness :
  circuit_breakers (Routes.web_design env_openai_ok 3 req_anthropic anthropic_open).2
    = circuit_breakers anthropic_open /\
  provider_calls (Routes.web_design env_openai_ok 3 req_anthropic anthropic_open).2
    = (provider_calls anthropic_open ++ ["openai"])%list.
Proof.
  destruct (direct_routes_go_round_the_breakers env_openai_ok 3 req_anthropic
              anthropic_open) as [(H1 & _ & H3 & _) _].
  split; [exact H1 |]. apply H3. reflexivity.
Defined.

Lemma pro_routes_check_tier_before_counting_witness :
  Routes.web_design_route jwt_decode env_openai_ok http_free world0
    = (Auth.tier_refused "free" "pro", world0).
Proof.
  destruct (pro_routes_check_tier_before_counting jwt_decode env_openai_ok
              http_free world0 "free" 1 _ eq_refl ltac:(discriminate)
              eq_refl eq_refl) as [H _].
  apply H. reflexivity.
Defined.

Lemma dispatch_calls_two_providers_at_most_witness :
  circuit_breakers (dispatch env_deployed 3 req_hunter world0).2 !! "google"
    = circuit_breakers world0 !! "google".
Proof.
  destruct (dispatch_calls_two_providers_at_most env_deployed 3 req_hunter world0)
    as [_ H].
  apply H; discriminate.
Defined.

(** Six requests for 'hunter', with the default threshold of 5: each is
    answered by OpenAI, hunter's counter goes to 6 and its breaker is still
    closed. *)
Example hunter_breaker_stays_closed :
  let w6 := repeat_dispatch env_deployed 6 3 req_hunter world0 in
  circuit_breakers w6 !! "hunter" = Some (Mk "hunter" 5 60 6 closed 0) /\
  provider_calls w6
    = ["hunter"; "openai"; "hunter"; "openai"; "hunter"; "openai";
       "hunter"; "openai"; "hunter"; "openai"; "hunter"; "openai"] /\
  u_provider <$> usage w6
    = ["hunter"; "hunter"; "hunter"; "hunter"; "hunter"; "hunter"].
Proof. vm_compute. repeat split. Qed.
End FurtherExamples.
